(** * weather-app-backend: a shallow embedding of [backend/server.js]

    The server is request/response glue written in JavaScript: it reads a
    JSON body, validates it, calls the weather and geocoding providers
    through axios, reshapes the JSON it gets back, and reads or writes one
    SQLite table.  This development embeds

    - the JavaScript values and the handful of language operations the
      handlers rely on (truthiness, [ToString], property reads and writes,
      [encodeURIComponent], [new Date(...)]) in module [JS];
    - the world the handlers run in (environment variables, the clock, the
      upstream providers, the SQLite driver) as a record [Env];
    - the functions and route handlers of [server.js], top to bottom.

    JavaScript strings are represented by their UTF-8 bytes ([string]), so
    every string of the model is well-formed Unicode (a lone surrogate, on
    which [encodeURIComponent] throws, has no representation).  The request
    body is the object [express.json()] parsed. *)

From Stdlib Require Import ZArith List String Ascii Bool Lia DecimalString.
Import ListNotations.

Set Implicit Arguments.
Set Warnings "-register-all".

Open Scope string_scope.

(* ================================================================== *)
(** * JavaScript values *)

Module JS.

(** ** Numbers

    A Number is kept as the decimal that [Number::toString] prints for it:
    a finite non-zero Number [x] is [Dec neg m e], standing for
    [(-1)^neg * m * 10^e].  Every IEEE double has such a decimal, so a
    statement proved for all [number]s holds for all doubles. *)

Inductive number : Type :=
| NaN
| Inf (negative : bool)
| Zero (negative : bool)
| Dec (negative : bool) (m : positive) (e : Z).

Definition of_Z (z : Z) : number :=
  match z with
  | Z0 => Zero false
  | Zpos p => Dec false p 0
  | Zneg p => Dec true p 0
  end.

(** Decimal digits of a positive, most significant first. *)
Definition digits (m : positive) : list ascii :=
  list_ascii_of_string (NilEmpty.string_of_uint (Pos.to_uint m)).

Definition is_zero_digit (c : ascii) : bool := Ascii.eqb c "0"%char.

Fixpoint drop_zeros (l : list ascii) : list ascii :=
  match l with
  | c :: l' => if is_zero_digit c then drop_zeros l' else l
  | [] => []
  end.

(** The digits of [m] without its trailing zeros. *)
Definition significand (m : positive) : list ascii :=
  rev (drop_zeros (rev (digits m))).

Definition zeros (n : nat) : string := string_of_list_ascii (repeat "0"%char n).

Definition decimal_of_Z_abs (z : Z) : string :=
  NilZero.string_of_uint (N.to_uint (Z.abs_N z)).

(** [Number::toString(x)] for a finite positive [x = m * 10^e], radix 10
    (ECMA-262, 6.1.6.1.20): with [k] significant digits [s] and
    [x = 0.s * 10^n]. *)
Definition positive_toString (m : positive) (e : Z) : string :=
  let s := significand m in
  let k := Z.of_nat (List.length s) in
  let n := (e + Z.of_nat (List.length (digits m)))%Z in
  if ((k <=? n) && (n <=? 21))%Z then
    string_of_list_ascii s ++ zeros (Z.to_nat (n - k))
  else if ((0 <? n) && (n <=? 21))%Z then
    string_of_list_ascii (firstn (Z.to_nat n) s) ++ "." ++
    string_of_list_ascii (skipn (Z.to_nat n) s)
  else if ((-6 <? n) && (n <=? 0))%Z then
    "0." ++ zeros (Z.to_nat (- n)) ++ string_of_list_ascii s
  else
    let exponent := (if (n - 1 <? 0)%Z then "e-" else "e+") ++ decimal_of_Z_abs (n - 1) in
    match s with
    | [d] => String d exponent
    | d :: ds => String d ("." ++ string_of_list_ascii ds ++ exponent)
    | [] => exponent
    end.

Definition Number_toString (x : number) : string :=
  match x with
  | NaN => "NaN"
  | Inf false => "Infinity"
  | Inf true => "-Infinity"
  | Zero _ => "0"
  | Dec false m e => positive_toString m e
  | Dec true m e => "-" ++ positive_toString m e
  end.

(** [x > 0] on Numbers. *)
Definition is_positive (x : number) : bool :=
  match x with
  | Inf false | Dec false _ _ => true
  | _ => false
  end.

(** [TimeClip(x)]: the time value of [new Date(x)]; [None] is NaN. *)
Definition TimeClip (x : number) : option Z :=
  match x with
  | NaN | Inf _ => None
  | Zero _ => Some 0%Z
  | Dec neg m e =>
      let limit := 8640000000000000%Z in
      let too_large :=
        if (0 <=? e)%Z then (limit <? Zpos m * 10 ^ e)%Z
        else (limit * 10 ^ (- e) <? Zpos m)%Z in
      let magnitude :=
        if (0 <=? e)%Z then (Zpos m * 10 ^ e)%Z
        else (Zpos m / 10 ^ (- e))%Z in
      if too_large then None
      else Some (if neg then (- magnitude)%Z else magnitude)
  end.

(** ** Values *)

Inductive value : Type :=
| Undefined
| Null
| Bool (b : bool)
| Num (x : number)
| Str (s : string)
| Arr (elements : list value)
| Obj (properties : list (string * value)).

(** Plain objects keep their own properties in insertion order. *)
Definition object : Type := list (string * value).

(** ** Abrupt completions *)

Record httpResponse : Type := { status : Z; data : value }.

(** What a [catch] clause of the server can receive: a [TypeError] raised
    by the language, or the error axios rejects with, whose [response]
    is present when the provider answered. *)
Inductive exn : Type :=
| TypeError
| AxiosError (response : option httpResponse).

Inductive completion (A : Type) : Type :=
| Normal (a : A)
| Throw (err : exn).

Arguments Normal {A} a.
Arguments Throw {A} err.

Definition cbind {A B} (c : completion A) (f : A -> completion B) : completion B :=
  match c with
  | Normal a => f a
  | Throw err => Throw err
  end.

(** ** Own properties *)

Fixpoint lookup (k : string) (o : object) : value :=
  match o with
  | [] => Undefined
  | (k', v) :: o' => if String.eqb k k' then v else lookup k o'
  end.

Fixpoint has_own (k : string) (o : object) : bool :=
  match o with
  | [] => false
  | (k', _) :: o' => String.eqb k k' || has_own k o'
  end.

(** Assignment [o[k] = v]: an existing property keeps its place. *)
Fixpoint assign (k : string) (v : value) (o : object) : object :=
  match o with
  | [] => [(k, v)]
  | (k', v') :: o' =>
      if String.eqb k k' then (k, v) :: o' else (k', v') :: assign k v o'
  end.

(** ** Conversions *)

(** [ToBoolean]. *)
Definition truthy (v : value) : bool :=
  match v with
  | Undefined | Null => false
  | Bool b => b
  | Num NaN | Num (Zero _) => false
  | Num _ => true
  | Str s => negb (String.eqb s "")
  | Arr _ | Obj _ => true
  end.

Definition is_undefined (v : value) : bool :=
  match v with
  | Undefined => true
  | _ => false
  end.

(** [a || b] on values. *)
Definition or_else (a b : value) : value := if truthy a then a else b.

(** [ToString].  The objects of the model are the ones [JSON.parse] and
    object literals build: their prototype is [Object.prototype] and none
    of their own properties is callable.  Such an object converts to
    ["[object Object]"], unless an own property shadows [toString], in
    which case no conversion method is left and the conversion throws.
    An array converts by [Array.prototype.join]. *)
Fixpoint ToString (v : value) : completion string :=
  match v with
  | Undefined => Normal "undefined"
  | Null => Normal "null"
  | Bool true => Normal "true"
  | Bool false => Normal "false"
  | Num x => Normal (Number_toString x)
  | Str s => Normal s
  | Arr l =>
      (fix join (l : list value) : completion string :=
         match l with
         | [] => Normal ""
         | x :: l' =>
             cbind (match x with
                    | Undefined | Null => Normal ""
                    | _ => ToString x
                    end)
               (fun sx =>
                  match l' with
                  | [] => Normal sx
                  | _ => cbind (join l') (fun sl => Normal (sx ++ "," ++ sl))
                  end)
         end) l
  | Obj o => if has_own "toString" o then Throw TypeError else Normal "[object Object]"
  end.

(** ** Property access

    [get v k] is [v.k] for a [v] other than [undefined] and [null], and
    for the property names the server reads from JSON data ([coord],
    [lat], [message], ...): none of them is defined on a prototype, so
    the read finds an own property of an object or nothing. *)
Definition get (v : value) (k : string) : value :=
  match v with
  | Obj o => lookup k o
  | _ => Undefined
  end.

(** [v.k]: reading a property of [undefined] or [null] throws. *)
Definition prop (v : value) (k : string) : completion value :=
  match v with
  | Undefined | Null => Throw TypeError
  | _ => Normal (get v k)
  end.

(** [v[0]].  Of a string it is the first character, kept here as the
    first byte: the server only reads named properties of it, and a
    one-character string has none of them. *)
Definition index0 (v : value) : completion value :=
  match v with
  | Undefined | Null => Throw TypeError
  | Arr l => Normal (hd Undefined l)
  | Str (String c _) => Normal (Str (String c ""))
  | Obj o => Normal (lookup "0" o)
  | _ => Normal Undefined
  end.

(** [v.k = x] in sloppy mode ([server.js] is a CommonJS module without
    ["use strict"]): on a primitive the assignment is silently dropped.
    On an array it would add a named property, which [JSON.stringify]
    never emits and the server never reads back; the model drops it. *)
Definition set_prop (v : value) (k : string) (x : value) : value :=
  match v with
  | Obj o => Obj (assign k x o)
  | _ => v
  end.

(** ** [encodeURIComponent] *)

Definition unreserved (c : ascii) : bool :=
  let n := nat_of_ascii c in
  ((65 <=? n) && (n <=? 90) || (97 <=? n) && (n <=? 122) || (48 <=? n) && (n <=? 57)
   || existsb (Ascii.eqb c)
        ["-"; "_"; "."; "!"; "~"; "*"; "'"; "("; ")"]%char)%nat.

Definition hex_digit (n : nat) : ascii :=
  nth n ["0"; "1"; "2"; "3"; "4"; "5"; "6"; "7"; "8"; "9";
         "A"; "B"; "C"; "D"; "E"; "F"]%char "0"%char.

Fixpoint percent_encode (s : string) : string :=
  match s with
  | "" => ""
  | String c s' =>
      if unreserved c then String c (percent_encode s')
      else
        let n := nat_of_ascii c in
        String "%" (String (hex_digit (n / 16)) (String (hex_digit (n mod 16))
          (percent_encode s')))
  end.

Definition encodeURIComponent (v : value) : completion string :=
  cbind (ToString v) (fun s => Normal (percent_encode s)).

End JS.

Import JS.

Declare Scope completion_scope.
Delimit Scope completion_scope with completion.
Notation "x <~ c ;; k" := (cbind c (fun x => k))
  (at level 61, c at next level, right associativity) : completion_scope.
Open Scope completion_scope.

(* ================================================================== *)
(** * The world around the server *)

(** The outcome of [axios.get(url)]: the promise resolves with a response
    whose [data] is the parsed payload, or rejects (network error, or a
    status outside 2xx, in which case the error carries the response). *)
Inductive axiosResult : Type :=
| Resolved (payload : value)
| Rejected (response : option httpResponse).

Record Env : Type := {
  (** [process.env.OPENWEATHER_API_KEY]; [None] when the variable is unset *)
  OPENWEATHER_API_KEY : option string;
  (** the clock read by [new Date()], in milliseconds since the epoch *)
  now : Z;
  (** [Date.parse]; [None] is [NaN] *)
  Date_parse : string -> option Z;
  (** [ToNumber] on strings *)
  StringToNumber : string -> number;
  (** [parseFloat] on strings *)
  parseFloat : string -> number;
  (** what the provider answers to a GET of this URL *)
  axios_get : string -> axiosResult;
  (** when both weather requests are rejected: whether the forecast
      request is the one that is rejected first *)
  forecast_rejects_first : bool;
  (** SQLite's comparison of the integer column [id] with the text
      parameter taken from the request path *)
  sqlite_id_equals : Z -> string -> bool;
  (** whether a statement handed to the SQLite driver fails *)
  sqlite_fails : bool;
  (** SQLite's [CURRENT_TIMESTAMP] *)
  CURRENT_TIMESTAMP : string
}.

(** ** Observable calls *)

Inductive event : Type :=
| Called_getCoordinatesFromLocation (location : value)
| Called_getLocationFromCoordinates (lat lon : value)
| Http_get (url : string).

(** A computation of a handler: the calls it made, in order, and how it
    completed. *)
Definition M (A : Type) : Type := list event * completion A.

Definition ret {A} (a : A) : M A := ([], Normal a).

Definition bind {A B} (m : M A) (f : A -> M B) : M B :=
  match m with
  | (l, Normal a) => let (l', r) := f a in ((l ++ l')%list, r)
  | (l, Throw err) => (l, Throw err)
  end.

Definition lift {A} (c : completion A) : M A := ([], c).

Definition emit (ev : event) : M unit := ([ev], Normal tt).

(** [try { m } catch { h }] *)
Definition try_catch {A} (m : M A) (h : exn -> M A) : M A :=
  match m with
  | (l, Normal a) => (l, Normal a)
  | (l, Throw err) => let (l', r) := h err in ((l ++ l')%list, r)
  end.

Declare Scope handler_scope.
Delimit Scope handler_scope with handler.
Notation "x <- c ;; k" := (bind c (fun x => k))
  (at level 61, c at next level, right associativity) : handler_scope.
Notation "c ;;; k" := (bind c (fun _ => k))
  (at level 61, right associativity) : handler_scope.
Open Scope handler_scope.

(** ** HTTP responses of the server *)

Record response : Type := {
  statusCode : Z;
  headers : list (string * string);
  sent : value
}.

(** [res.status(code).json(v)] *)
Definition json_response (code : Z) (v : value) : response :=
  {| statusCode := code; headers := []; sent := v |}.

Definition error_body (message : value) : value := Obj [("error", message)].

(** ** The table [weather_queries]

    The table is the one [createTable] declares: an [AUTOINCREMENT]
    integer key [id], the columns [location], [date_from], [date_to] and
    [weather_data], and [created_at] set by SQLite.  A row holds the
    column values as the driver hands them to JavaScript; the text column
    [weather_data] is represented by the value [JSON.parse] returns for
    it.  Parameters are stored as they are bound: the conversions SQLite
    applies to a parameter that is neither text nor [NULL] are left out
    (the handlers bind strings and [null], but for a body that departs
    from the documented types). *)

Record row : Type := {
  id : Z;
  location : value;
  date_from : value;
  date_to : value;
  weather_data : value;
  created_at : value
}.

Record database : Type := {
  weather_queries : list row;
  (** the largest [id] ever given out (the table is [AUTOINCREMENT]) *)
  sqlite_sequence : Z
}.

(** [JSON.parse(JSON.stringify(v))]: properties holding [undefined] are
    left out, [undefined] in an array and the non-finite numbers become
    [null], and [-0] becomes [0]. *)
Fixpoint JSON_image (v : value) : value :=
  match v with
  | Num NaN | Num (Inf _) => Null
  | Num (Zero _) => Num (Zero false)
  | Arr l =>
      Arr (map (fun x => match x with
                         | Undefined => Null
                         | _ => JSON_image x
                         end) l)
  | Obj o =>
      Obj ((fix members (o : object) : object :=
              match o with
              | [] => []
              | (_, Undefined) :: o' => members o'
              | (k, x) :: o' => (k, JSON_image x) :: members o'
              end) o)
  | _ => v
  end.

Definition next_id (db : database) : Z :=
  Z.max (sqlite_sequence db) (fold_right Z.max 0%Z (map id (weather_queries db))) + 1.

(** [INSERT INTO weather_queries (location, date_from, date_to, weather_data)
    VALUES (?, ?, ?, ?)] *)
Definition sql_insert (E : Env) (db : database)
    (location date_from date_to weather_data : value) : database :=
  if sqlite_fails E then db
  else
    let i := next_id db in
    {| weather_queries :=
         (weather_queries db ++
            [{| id := i; location := location; date_from := date_from;
                date_to := date_to; weather_data := weather_data;
                created_at := Str (CURRENT_TIMESTAMP E) |}])%list;
       sqlite_sequence := i |}.

(** The outcome the driver reports to the callback of [db.run]. *)
Inductive run_result : Type :=
| Run_error
| Run_ok (changes : nat).

(** [UPDATE weather_queries SET location = ?, date_from = ?, date_to = ?,
    weather_data = ? WHERE id = ?] *)
Definition sql_update (E : Env) (db : database)
    (location date_from date_to weather_data : value) (id_param : string)
    : run_result * database :=
  if sqlite_fails E then (Run_error, db)
  else
    let hit (r : row) := sqlite_id_equals E (id r) id_param in
    (Run_ok (List.length (filter hit (weather_queries db))),
     {| weather_queries :=
          map (fun r =>
                 if hit r then
                   {| id := id r; location := location; date_from := date_from;
                      date_to := date_to; weather_data := weather_data;
                      created_at := created_at r |}
                 else r) (weather_queries db);
        sqlite_sequence := sqlite_sequence db |}).

(* ================================================================== *)
(** * [server.js] *)

Record validation : Type := { valid : bool; error : value }.

Record urls : Type := { current : string; forecast : string }.

Section Server.

Variable E : Env.

(** [${apiKey}] *)
Definition apiKey : string :=
  match OPENWEATHER_API_KEY E with
  | Some key => key
  | None => "undefined"
  end.

(** ** Dates *)

(** The time value of [new Date(v)]; [None] is an invalid date. *)
Definition new_Date (v : value) : completion (option Z) :=
  match v with
  | Undefined => Normal None
  | Null => Normal (Some 0%Z)
  | Bool b => Normal (Some (if b then 1 else 0)%Z)
  | Num x => Normal (TimeClip x)
  | Str s => Normal (Date_parse E s)
  | Arr _ | Obj _ => s <~ ToString v ;; Normal (Date_parse E s)
  end.

Definition isNaN (t : option Z) : bool :=
  match t with
  | None => true
  | Some _ => false
  end.

(** [a > b] on dates. *)
Definition date_gt (a b : option Z) : bool :=
  match a, b with
  | Some x, Some y => (y <? x)%Z
  | _, _ => false
  end.

Definition validateDateRange (dateFrom dateTo : value) : completion validation :=
  if negb (truthy dateFrom) || negb (truthy dateTo) then
    Normal {| valid := false; error := Str "Both dates are required" |}
  else
    from <~ new_Date dateFrom ;;
    to <~ new_Date dateTo ;;
    let now := Some (now E) in
    if isNaN from || isNaN to then
      Normal {| valid := false; error := Str "Invalid date format" |}
    else if date_gt from to then
      Normal {| valid := false; error := Str "Start date must be before end date" |}
    else if date_gt to now then
      Normal {| valid := false; error := Str "End date cannot be in the future" |}
    else Normal {| valid := true; error := Undefined |}.

(** ** Geocoding *)

(** [axios.get(url)], awaited. *)
Definition axios_get_await (url : string) : M value :=
  emit (Http_get url) ;;;
  lift (match axios_get E url with
        | Resolved payload => Normal payload
        | Rejected response => Throw (AxiosError response)
        end).

(** [v > 0] *)
Definition gt_zero (v : value) : completion bool :=
  match v with
  | Undefined | Null => Normal false
  | Bool b => Normal b
  | Num x => Normal (is_positive x)
  | Str s => Normal (is_positive (StringToNumber E s))
  | Arr _ | Obj _ => s <~ ToString v ;; Normal (is_positive (StringToNumber E s))
  end.

(** [v.length > 0] *)
Definition length_gt_zero (v : value) : completion bool :=
  match v with
  | Undefined | Null => Throw TypeError
  | Arr l => Normal (negb (Nat.eqb (List.length l) 0))
  | Str s => Normal (negb (String.eqb s ""))
  | Obj o => gt_zero (lookup "length" o)
  | Bool _ | Num _ => Normal false
  end.

(** [response.data && response.data.length > 0] *)
Definition has_results (payload : value) : completion bool :=
  if truthy payload then length_gt_zero payload else Normal false.

(** [`${place.name}${place.state ? ", " + place.state : ""}, ${place.country}`] *)
Definition fullName_of (place : value) : completion string :=
  name <~ prop place "name" ;;
  name <~ ToString name ;;
  state <~ prop place "state" ;;
  state <~ (if truthy state then s <~ ToString state ;; Normal (", " ++ s)
            else Normal "") ;;
  country <~ prop place "country" ;;
  country <~ ToString country ;;
  Normal (name ++ state ++ ", " ++ country).

(** The body of the [try] block. *)
Definition getCoordinatesFromLocation_try (location : value) : M value :=
  geocodeUrl <- lift (q <~ encodeURIComponent location ;;
                      Normal ("https://api.openweathermap.org/geo/1.0/direct?q=" ++ q
                              ++ "&limit=1&appid=" ++ apiKey)) ;;
  payload <- axios_get_await geocodeUrl ;;
  found <- lift (has_results payload) ;;
  if found then
    lift (place <~ index0 payload ;;
          lat <~ prop place "lat" ;;
          lon <~ prop place "lon" ;;
          name <~ prop place "name" ;;
          country <~ prop place "country" ;;
          state <~ prop place "state" ;;
          fullName <~ fullName_of place ;;
          Normal (Obj [("lat", lat); ("lon", lon); ("name", name);
                       ("country", country); ("state", or_else state Null);
                       ("fullName", Str fullName)]))
  else ret Null.

Definition getCoordinatesFromLocation (location : value) : M value :=
  emit (Called_getCoordinatesFromLocation location) ;;;
  try_catch (getCoordinatesFromLocation_try location) (fun _ => ret Null).

(** The body of the [try] block. *)
Definition getLocationFromCoordinates_try (lat lon : value) : M value :=
  url <- lift (slat <~ ToString lat ;;
               slon <~ ToString lon ;;
               Normal ("https://api.openweathermap.org/geo/1.0/reverse?lat=" ++ slat
                       ++ "&lon=" ++ slon ++ "&limit=1&appid=" ++ apiKey)) ;;
  payload <- axios_get_await url ;;
  found <- lift (has_results payload) ;;
  if found then
    lift (place <~ index0 payload ;;
          slat <~ ToString lat ;;
          slon <~ ToString lon ;;
          name <~ prop place "name" ;;
          country <~ prop place "country" ;;
          state <~ prop place "state" ;;
          fullName <~ fullName_of place ;;
          Normal (Obj [("lat", Num (parseFloat E slat)); ("lon", Num (parseFloat E slon));
                       ("name", name); ("country", country);
                       ("state", or_else state Null); ("fullName", Str fullName)]))
  else ret Null.

Definition getLocationFromCoordinates (lat lon : value) : M value :=
  emit (Called_getLocationFromCoordinates lat lon) ;;;
  try_catch (getLocationFromCoordinates_try lat lon) (fun _ => ret Null).

(** ** Weather URLs *)

(** [type === "zip"] *)
Definition is_zip (type : value) : bool :=
  match type with
  | Str s => String.eqb s "zip"
  | _ => false
  end.

Definition buildWeatherUrl (location lat lon type : value) : completion urls :=
  if truthy lat && truthy lon then
    lat <~ ToString lat ;;
    lon <~ ToString lon ;;
    Normal
      {| current := "https://api.openweathermap.org/data/2.5/weather?lat=" ++ lat
                    ++ "&lon=" ++ lon ++ "&appid=" ++ apiKey ++ "&units=metric";
         forecast := "https://api.openweathermap.org/data/2.5/forecast?lat=" ++ lat
                     ++ "&lon=" ++ lon ++ "&appid=" ++ apiKey ++ "&units=metric" |}
  else if is_zip type then
    location <~ ToString location ;;
    Normal
      {| current := "https://api.openweathermap.org/data/2.5/weather?zip=" ++ location
                    ++ "&appid=" ++ apiKey ++ "&units=metric";
         forecast := "https://api.openweathermap.org/data/2.5/forecast?zip=" ++ location
                     ++ "&appid=" ++ apiKey ++ "&units=metric" |}
  else
    location <~ encodeURIComponent location ;;
    Normal
      {| current := "https://api.openweathermap.org/data/2.5/weather?q=" ++ location
                    ++ "&appid=" ++ apiKey ++ "&units=metric";
         forecast := "https://api.openweathermap.org/data/2.5/forecast?q=" ++ location
                     ++ "&appid=" ++ apiKey ++ "&units=metric" |}.

(** ** [POST /api/weather] *)

(** [if (!location && (lat === undefined || lon === undefined)) return
    res.status(400).json(...)]: the response the check returns, if any. *)
Definition presence_check (location lat lon : value) : option response :=
  if negb (truthy location) && (is_undefined lat || is_undefined lon) then
    Some (json_response 400 (error_body (Str "Location or coordinates required.")))
  else None.

(** [if (dateFrom && dateTo) { const validation = validateDateRange(...);
    if (!validation.valid) return res.status(400).json(...) }]: the
    response the check returns, if any. *)
Definition date_check (dateFrom dateTo : value) : completion (option response) :=
  if truthy dateFrom && truthy dateTo then
    validation <~ validateDateRange dateFrom dateTo ;;
    if negb (valid validation) then
      Normal (Some (json_response 400 (error_body (error validation))))
    else Normal None
  else Normal None.

(** [let enhancedLocationInfo = null; if (location && !lat && !lon) ...
    else if (lat && lon && !location) ...] *)
Definition enrich (location lat lon : value) : M value :=
  if truthy location && negb (truthy lat) && negb (truthy lon) then
    getCoordinatesFromLocation location
  else if truthy lat && truthy lon && negb (truthy location) then
    getLocationFromCoordinates lat lon
  else ret Null.

(** [Promise.all] of two requests: it resolves when both do, and rejects
    with the rejection that comes first. *)
Definition Promise_all (a b : axiosResult) : completion (value * value) :=
  match a, b with
  | Resolved x, Resolved y => Normal (x, y)
  | Rejected r, Resolved _ => Throw (AxiosError r)
  | Resolved _, Rejected r => Throw (AxiosError r)
  | Rejected ra, Rejected rb =>
      Throw (AxiosError (if forecast_rejects_first E then rb else ra))
  end.

(** [await Promise.all([axios.get(urls.current), axios.get(urls.forecast)])],
    giving the [data] of the two responses. *)
Definition fetch_weather (u : urls) : M (value * value) :=
  emit (Http_get (current u)) ;;;
  emit (Http_get (forecast u)) ;;;
  lift (Promise_all (axios_get E (current u)) (axios_get E (forecast u))).

(** [location || `${lat},${lon}`] *)
Definition searchedLocation (location lat lon : value) : completion value :=
  if truthy location then Normal location
  else
    lat <~ ToString lat ;;
    lon <~ ToString lon ;;
    Normal (Str (lat ++ "," ++ lon)).

(** The three statements that extend [weatherData.current]. *)
Definition augment (current enhancedLocationInfo : value) : completion value :=
  coord <~ prop current "coord" ;;
  let current :=
    if truthy coord then
      set_prop current "coordinates"
        (Obj [("lat", get coord "lat"); ("lon", get coord "lon")])
    else current in
  let current :=
    if truthy enhancedLocationInfo then
      set_prop (set_prop current "enhancedLocation" enhancedLocationInfo)
        "displayName" (get enhancedLocationInfo "fullName")
    else current in
  timezone <~ prop current "timezone" ;;
  Normal (if truthy timezone then set_prop current "timezoneOffset" timezone
          else current).

(** What follows the two checks, up to [res.json(weatherData)]. *)
Definition fetch_and_store (db : database)
    (location lat lon type dateFrom dateTo : value) : M (response * database) :=
  enhancedLocationInfo <- enrich location lat lon ;;
  urls <- lift (buildWeatherUrl location lat lon type) ;;
  responses <- fetch_weather urls ;;
  searched <- lift (searchedLocation location lat lon) ;;
  current <- lift (augment (fst responses) enhancedLocationInfo) ;;
  let weatherData :=
    Obj [("current", current); ("forecast", snd responses);
         ("searchedLocation", searched)] in
  let db := sql_insert E db searched (or_else dateFrom Null) (or_else dateTo Null)
              (JSON_image weatherData) in
  ret (json_response 200 weatherData, db).

(** The body of the [try] block; [body] is [req.body], the object
    [express.json()] parsed. *)
Definition post_api_weather_try (db : database) (body : object)
    : M (response * database) :=
  let location := lookup "location" body in
  let lat := lookup "lat" body in
  let lon := lookup "lon" body in
  let type := lookup "type" body in
  let dateFrom := lookup "dateFrom" body in
  let dateTo := lookup "dateTo" body in
  match presence_check location lat lon with
  | Some res => ret (res, db)
  | None =>
      checked <- lift (date_check dateFrom dateTo) ;;
      match checked with
      | Some res => ret (res, db)
      | None => fetch_and_store db location lat lon type dateFrom dateTo
      end
  end.

(** The [catch (err)] clause. *)
Definition weather_error_response (err : exn) : response :=
  match err with
  | AxiosError (Some r) =>
      if truthy (data r) then
        json_response (status r) (error_body (get (data r) "message"))
      else json_response 500 (error_body (Str "Failed to fetch weather data."))
  | _ => json_response 500 (error_body (Str "Failed to fetch weather data."))
  end.

Definition post_api_weather (db : database) (body : object)
    : list event * (response * database) :=
  match post_api_weather_try db body with
  | (calls, Normal out) => (calls, out)
  | (calls, Throw err) => (calls, (weather_error_response err, db))
  end.

(** ** [PUT /api/queries/:id] *)

(** The callback of [db.run]. *)
Definition update_response (result : run_result) (weatherData : value) : response :=
  match result with
  | Run_error => json_response 500 (error_body (Str "Failed to update query"))
  | Run_ok O => json_response 404 (error_body (Str "Query not found"))
  | Run_ok (S _) =>
      json_response 200
        (Obj [("message", Str "Query updated successfully");
              ("weatherData", weatherData)])
  end.

(** The body of the [try] block; [id_param] is [req.params.id]. *)
Definition put_api_queries_id_try (db : database) (id_param : string) (body : object)
    : M (response * database) :=
  let location := lookup "location" body in
  let dateFrom := lookup "dateFrom" body in
  let dateTo := lookup "dateTo" body in
  if negb (truthy location) then
    ret (json_response 400 (error_body (Str "Location is required")), db)
  else
    checked <- lift (date_check dateFrom dateTo) ;;
    match checked with
    | Some res => ret (res, db)
    | None =>
        urls <- lift (buildWeatherUrl location Undefined Undefined Undefined) ;;
        responses <- fetch_weather urls ;;
        let weatherData :=
          Obj [("current", fst responses); ("forecast", snd responses)] in
        let updated :=
          sql_update E db location (or_else dateFrom Null) (or_else dateTo Null)
            (JSON_image weatherData) id_param in
        ret (update_response (fst updated) weatherData, snd updated)
    end.

Definition put_api_queries_id (db : database) (id_param : string) (body : object)
    : list event * (response * database) :=
  match put_api_queries_id_try db id_param body with
  | (calls, Normal out) => (calls, out)
  | (calls, Throw _) =>
      (calls, (json_response 500 (error_body (Str "Failed to update weather data")), db))
  end.

End Server.

(** ** [GET /api/export/csv] *)

Definition csv_header : string :=
  "ID,Location,Date From,Date To,Temperature,Weather,Created At".

(** [`${row.id},${row.location},${row.date_from || ""},${row.date_to || ""},
    ${weather.current.main.temp}°C,${weather.current.weather[0].main},
    ${row.created_at}`], with [weather = JSON.parse(row.weather_data)]. *)
Definition csv_line (r : row) : completion string :=
  let weather := weather_data r in
  location <~ ToString (location r) ;;
  date_from <~ ToString (or_else (date_from r) (Str "")) ;;
  date_to <~ ToString (or_else (date_to r) (Str "")) ;;
  current <~ prop weather "current" ;;
  main <~ prop current "main" ;;
  temp <~ prop main "temp" ;;
  temp <~ ToString temp ;;
  conditions <~ prop current "weather" ;;
  first <~ index0 conditions ;;
  condition <~ prop first "main" ;;
  condition <~ ToString condition ;;
  created_at <~ ToString (created_at r) ;;
  Normal (Number_toString (of_Z (id r)) ++ "," ++ location ++ "," ++ date_from ++ ","
          ++ date_to ++ "," ++ temp ++ "°C," ++ condition ++ "," ++ created_at).

Fixpoint csv_lines (rows : list row) : completion (list string) :=
  match rows with
  | [] => Normal []
  | r :: rows' =>
      line <~ csv_line r ;;
      lines <~ csv_lines rows' ;;
      Normal (line :: lines)
  end.

Definition newline : string := String (ascii_of_nat 10) "".

(** The callback of [db.all]: [failed] tells whether the driver reported
    an error, [rows] is the result of [SELECT * FROM weather_queries
    ORDER BY created_at DESC].  An exception leaves the callback
    uncaught. *)
Definition get_api_export_csv (failed : bool) (rows : list row) : completion response :=
  if failed then Normal (json_response 500 (error_body (Str "Failed to fetch data")))
  else
    lines <~ csv_lines rows ;;
    Normal {| statusCode := 200;
              headers := [("Content-Type", "text/csv");
                          ("Content-Disposition",
                           "attachment; filename=weather_queries.csv")];
              sent := Str (String.concat newline (csv_header :: lines)) |}.

(** ** The other routes over the table

    As for the CSV export, the callbacks of [db.all] take the rows the
    query returned; [db.get] and the [DELETE] statement are given their
    SQL meaning over the table. *)

(** [{ ...row, weather_data: JSON.parse(row.weather_data) }]: the columns
    in the order of the table. *)
Definition row_json (r : row) : value :=
  Obj [("id", Num (of_Z (id r))); ("location", location r);
       ("date_from", date_from r); ("date_to", date_to r);
       ("weather_data", weather_data r); ("created_at", created_at r)].

(** [GET /api/queries]: the callback of [db.all]. *)
Definition get_api_queries (failed : bool) (rows : list row) : response :=
  if failed then json_response 500 (error_body (Str "Failed to fetch queries"))
  else json_response 200 (Arr (map row_json rows)).

(** The outcome the driver reports to the callback of [db.get]. *)
Inductive get_result : Type :=
| Get_error
| Get_row (found : option row).

(** [SELECT * FROM weather_queries WHERE id = ?] *)
Definition sql_get (E : Env) (db : database) (id_param : string) : get_result :=
  if sqlite_fails E then Get_error
  else Get_row (find (fun r => sqlite_id_equals E (id r) id_param) (weather_queries db)).

(** [GET /api/queries/:id] *)
Definition get_api_queries_id (E : Env) (db : database) (id_param : string) : response :=
  match sql_get E db id_param with
  | Get_error => json_response 500 (error_body (Str "Failed to fetch query"))
  | Get_row None => json_response 404 (error_body (Str "Query not found"))
  | Get_row (Some r) => json_response 200 (row_json r)
  end.

(** [DELETE FROM weather_queries WHERE id = ?] *)
Definition sql_delete (E : Env) (db : database) (id_param : string)
    : run_result * database :=
  if sqlite_fails E then (Run_error, db)
  else
    let hit (r : row) := sqlite_id_equals E (id r) id_param in
    (Run_ok (List.length (filter hit (weather_queries db))),
     {| weather_queries := filter (fun r => negb (hit r)) (weather_queries db);
        sqlite_sequence := sqlite_sequence db |}).

(** [DELETE /api/queries/:id] *)
Definition delete_api_queries_id (E : Env) (db : database) (id_param : string)
    : response * database :=
  let deleted := sql_delete E db id_param in
  (match fst deleted with
   | Run_error => json_response 500 (error_body (Str "Failed to delete query"))
   | Run_ok O => json_response 404 (error_body (Str "Query not found"))
   | Run_ok (S _) => json_response 200 (Obj [("message", Str "Query deleted successfully")])
   end,
   snd deleted).

(** [GET /api/export/json]: the callback of [db.all]. *)
Definition get_api_export_json (failed : bool) (rows : list row) : response :=
  if failed then json_response 500 (error_body (Str "Failed to fetch data"))
  else {| statusCode := 200;
          headers := [("Content-Type", "application/json");
                      ("Content-Disposition",
                       "attachment; filename=weather_queries.json")];
          sent := Arr (map row_json rows) |}.

(** ** [GET /api/youtube/:location] *)

(** [(item) => ({ id: item.id.videoId, title: item.snippet.title,
    thumbnail: item.snippet.thumbnails.medium.url,
    url: `https://www.youtube.com/watch?v=${item.id.videoId}` })] *)
Definition video_of (item : value) : completion value :=
  id <~ prop item "id" ;;
  videoId <~ prop id "videoId" ;;
  snippet <~ prop item "snippet" ;;
  title <~ prop snippet "title" ;;
  thumbnails <~ prop snippet "thumbnails" ;;
  medium <~ prop thumbnails "medium" ;;
  thumbnail <~ prop medium "url" ;;
  watched <~ ToString videoId ;;
  Normal (Obj [("id", videoId); ("title", title); ("thumbnail", thumbnail);
               ("url", Str ("https://www.youtube.com/watch?v=" ++ watched))]).

Fixpoint videos_of (items : list value) : completion (list value) :=
  match items with
  | [] => Normal []
  | item :: items' =>
      video <~ video_of item ;;
      videos <~ videos_of items' ;;
      Normal (video :: videos)
  end.

(** [response.data.items.map(...)]: only an array has a [map] to call. *)
Definition map_items (payload : value) : completion (list value) :=
  items <~ prop payload "items" ;;
  match items with
  | Arr l => videos_of l
  | _ => Throw TypeError
  end.

(** The body of the [try] block; [youtubeApiKey] is
    [process.env.YOUTUBE_API_KEY] and [location] is [req.params.location]. *)
Definition get_api_youtube_try (E : Env) (youtubeApiKey : option string)
    (location : string) : M response :=
  match youtubeApiKey with
  | Some key =>
      if String.eqb key "" then
        ret (json_response 200
               (Obj [("videos", Arr []);
                     ("message", Str "YouTube API key not configured")]))
      else
        let searchQuery := location ++ " travel guide" in
        let youtubeUrl :=
          "https://www.googleapis.com/youtube/v3/search?part=snippet&q="
          ++ percent_encode searchQuery ++ "&type=video&maxResults=5&key=" ++ key in
        payload <- axios_get_await E youtubeUrl ;;
        videos <- lift (map_items payload) ;;
        ret (json_response 200 (Obj [("videos", Arr videos)]))
  | None =>
      ret (json_response 200
             (Obj [("videos", Arr []);
                   ("message", Str "YouTube API key not configured")]))
  end.

Definition get_api_youtube (E : Env) (youtubeApiKey : option string)
    (location : string) : list event * response :=
  match get_api_youtube_try E youtubeApiKey location with
  | (calls, Normal res) => (calls, res)
  | (calls, Throw _) =>
      (calls, json_response 200
                (Obj [("videos", Arr []);
                      ("error", Str "Failed to fetch YouTube videos")]))
  end.

(** ** [GET /api/maps/:location] *)

(** What follows [await axios.get(geocodeUrl)]. *)
Definition map_of (E : Env) (key : string) (payload : value) : completion response :=
  results <~ prop payload "results" ;;
  found <~ length_gt_zero E results ;;
  if found then
    first <~ index0 results ;;
    geometry <~ prop first "geometry" ;;
    location <~ prop geometry "location" ;;
    lat <~ prop location "lat" ;;
    lat_text <~ ToString lat ;;
    lng_text <~ ToString (get location "lng") ;;
    Normal (json_response 200
              (Obj [("map",
                     Obj [("embedUrl",
                           Str ("https://www.google.com/maps/embed/v1/place?key=" ++ key
                                ++ "&q=" ++ lat_text ++ "," ++ lng_text ++ "&zoom=12"));
                          ("lat", lat); ("lng", get location "lng");
                          ("address", get first "formatted_address")])]))
  else
    Normal (json_response 200
              (Obj [("map", Null); ("error", Str "Location not found")])).

(** The body of the [try] block; [mapsApiKey] is
    [process.env.GOOGLE_MAPS_API_KEY] and [location] is [req.params.location]. *)
Definition get_api_maps_try (E : Env) (mapsApiKey : option string)
    (location : string) : M response :=
  match mapsApiKey with
  | Some key =>
      if String.eqb key "" then
        ret (json_response 200
               (Obj [("map", Null);
                     ("message", Str "Google Maps API key not configured")]))
      else
        let geocodeUrl :=
          "https://maps.googleapis.com/maps/api/geocode/json?address="
          ++ percent_encode location ++ "&key=" ++ key in
        payload <- axios_get_await E geocodeUrl ;;
        lift (map_of E key payload)
  | None =>
      ret (json_response 200
             (Obj [("map", Null);
                   ("message", Str "Google Maps API key not configured")]))
  end.

Definition get_api_maps (E : Env) (mapsApiKey : option string)
    (location : string) : list event * response :=
  match get_api_maps_try E mapsApiKey location with
  | (calls, Normal res) => (calls, res)
  | (calls, Throw _) =>
      (calls, json_response 200
                (Obj [("map", Null); ("error", Str "Failed to fetch map data")]))
  end.

(** ** The CORS policy *)

(** [hay.includes(needle)] *)
Fixpoint includes (needle hay : string) : bool :=
  prefix needle hay ||
  match hay with
  | "" => false
  | String _ hay' => includes needle hay'
  end.

(** [allowedOrigins]; [FRONTEND_URL] is [process.env.FRONTEND_URL]. *)
Definition allowedOrigins (FRONTEND_URL : option string) : list (option string) :=
  [Some "http://localhost:3000"; Some "http://localhost:5173";
   Some "http://localhost:5174"; Some "http://localhost:5175";
   Some "http://localhost:5176"; Some "http://localhost:5177";
   Some "http://localhost:5178"; FRONTEND_URL].

(** [allowedOrigins.includes(origin)] *)
Definition listed (FRONTEND_URL : option string) (origin : string) : bool :=
  existsb (fun allowed =>
             match allowed with
             | Some a => String.eqb a origin
             | None => false
             end) (allowedOrigins FRONTEND_URL).

(** The [origin] function given to [cors]: [true] is [callback(null, true)],
    [false] is [callback(new Error("Not allowed by CORS"))].  The origin
    is the [Origin] header of the request, [None] when it has none. *)
Definition cors_origin (FRONTEND_URL : option string) (origin : option string) : bool :=
  match origin with
  | None => true
  | Some o =>
      if String.eqb o "" then true
      else if includes "localhost" o || listed FRONTEND_URL o then true
      else if includes ".onrender.com" o then true
      else false
  end.

(* ================================================================== *)
(** * A sample world

    A concrete environment on which the handlers can be run: a provider
    that knows Paris, a clock stopped at 2026-01-01T00:00:00Z, and the
    few calendar dates the examples use. *)

Module Sample.

(** Unsigned decimal literals, [ddd] or [ddd.ddd]; anything else is [NaN]. *)
Definition decimal (s : string) : number :=
  let whole := substring 0 (match index 0 "." s with
                            | Some i => i
                            | None => String.length s
                            end) s in
  let fraction := match index 0 "." s with
                  | Some i => substring (S i) (String.length s - S i) s
                  | None => ""
                  end in
  match NilEmpty.uint_of_string (whole ++ fraction) with
  | Some u =>
      match N.of_uint u with
      | N0 => if String.eqb (whole ++ fraction) "" then NaN else Zero false
      | Npos m => Dec false m (- Z.of_nat (String.length fraction))
      end
  | None => NaN
  end.

Definition dates : list (string * Z) :=
  [("2024-01-01", 1704067200000); ("2024-01-31", 1706659200000);
   ("2026-01-01", 1767225600000); ("2031-01-01", 1924992000000)]%Z.

Fixpoint assoc (k : string) (l : list (string * Z)) : option Z :=
  match l with
  | [] => None
  | (k', z) :: l' => if String.eqb k k' then Some z else assoc k l'
  end.

Definition paris_place : value :=
  Obj [("name", Str "Paris"); ("lat", Num (Dec false 488534 (-4)));
       ("lon", Num (Dec false 23488 (-4))); ("country", Str "FR");
       ("state", Str "Ile-de-France")].

Definition current_with (timezone : value) : value :=
  Obj [("coord", Obj [("lon", Num (Dec false 23488 (-4)));
                      ("lat", Num (Dec false 488534 (-4)))]);
       ("weather", Arr [Obj [("id", Num (of_Z 803)); ("main", Str "Clouds")]]);
       ("main", Obj [("temp", Num (Dec false 1234 (-2)))]);
       ("timezone", timezone);
       ("name", Str "Paris")].

Definition paris_current : value := current_with (Num (of_Z 3600)).

Definition paris_forecast : value :=
  Obj [("cnt", Num (of_Z 40)); ("list", Arr [])].

(** The provider: [geo] answers both geocoding endpoints, [weather] and
    [forecast] answer the two weather endpoints. *)
Definition provider (geo weather forecast : axiosResult) (url : string) : axiosResult :=
  if prefix "https://api.openweathermap.org/geo/1.0/" url then geo
  else if prefix "https://api.openweathermap.org/data/2.5/weather?" url then weather
  else if prefix "https://api.openweathermap.org/data/2.5/forecast?" url then forecast
  else Rejected None.

Definition world (geo weather forecast : axiosResult) : Env :=
  {| OPENWEATHER_API_KEY := Some "KEY";
     now := 1767225600000;
     Date_parse := fun s => assoc s dates;
     StringToNumber := fun s => if String.eqb s "" then Zero false else decimal s;
     parseFloat := decimal;
     axios_get := provider geo weather forecast;
     forecast_rejects_first := false;
     sqlite_id_equals := fun i s => String.eqb (Number_toString (of_Z i)) s;
     sqlite_fails := false;
     CURRENT_TIMESTAMP := "2026-01-01 00:00:00" |}.

Definition env : Env :=
  world (Resolved (Arr [paris_place])) (Resolved paris_current) (Resolved paris_forecast).

Definition empty_db : database := {| weather_queries := []; sqlite_sequence := 0 |}.

(** The forecast endpoint is down: a gateway answers 502 with an empty body. *)
Definition bad_gateway : httpResponse := {| status := 502; data := Str "" |}.

Definition env_bad_gateway : Env :=
  world (Resolved (Arr [paris_place])) (Resolved paris_current)
    (Rejected (Some bad_gateway)).

(** The provider refuses the API key on the forecast endpoint. *)
Definition unauthorized : httpResponse :=
  {| status := 401;
     data := Obj [("cod", Num (of_Z 401)); ("message", Str "Invalid API key.")] |}.

Definition env_unauthorized : Env :=
  world (Resolved (Arr [paris_place])) (Resolved paris_current)
    (Rejected (Some unauthorized)).

(** A place on UTC: the provider reports a [timezone] of 0 seconds. *)
Definition env_utc : Env :=
  world (Resolved (Arr [paris_place])) (Resolved (current_with (Num (Zero false))))
    (Resolved paris_forecast).

(** The geocoding endpoints are unreachable, or know no such place. *)
Definition env_no_geocoding : Env :=
  world (Rejected None) (Resolved paris_current) (Resolved paris_forecast).

Definition env_unknown_place : Env :=
  world (Resolved (Arr [])) (Resolved paris_current) (Resolved paris_forecast).

(** A proxy answers the geocoding endpoints itself: status 200, and a
    page of HTML instead of a list of places. *)
Definition env_captive_portal : Env :=
  world (Resolved (Str "<html></html>")) (Resolved paris_current)
    (Resolved paris_forecast).

(** An environment around an arbitrary provider. *)
Definition world_of (get : string -> axiosResult) : Env :=
  {| OPENWEATHER_API_KEY := Some "KEY";
     now := 1767225600000;
     Date_parse := fun s => assoc s dates;
     StringToNumber := fun s => if String.eqb s "" then Zero false else decimal s;
     parseFloat := decimal;
     axios_get := get;
     forecast_rejects_first := false;
     sqlite_id_equals := fun i s => String.eqb (Number_toString (of_Z i)) s;
     sqlite_fails := false;
     CURRENT_TIMESTAMP := "2026-01-01 00:00:00" |}.

(** The driver fails on every statement. *)
Definition env_broken_driver : Env :=
  {| OPENWEATHER_API_KEY := Some "KEY";
     now := 1767225600000;
     Date_parse := fun s => assoc s dates;
     StringToNumber := fun s => if String.eqb s "" then Zero false else decimal s;
     parseFloat := decimal;
     axios_get := provider (Resolved (Arr [paris_place])) (Resolved paris_current)
                    (Resolved paris_forecast);
     forecast_rejects_first := false;
     sqlite_id_equals := fun i s => String.eqb (Number_toString (of_Z i)) s;
     sqlite_fails := true;
     CURRENT_TIMESTAMP := "2026-01-01 00:00:00" |}.

(** Two videos as the search endpoint lists them, and a page of them. *)
Definition video_item (videoId title : string) : value :=
  Obj [("id", Obj [("kind", Str "youtube#video"); ("videoId", Str videoId)]);
       ("snippet",
        Obj [("title", Str title);
             ("thumbnails",
              Obj [("medium",
                    Obj [("url", Str ("https://i.ytimg.com/vi/" ++ videoId
                                      ++ "/mqdefault.jpg"))])])])].

Definition videos_page : value :=
  Obj [("items", Arr [video_item "abc123" "Paris in 4 days";
                      video_item "xyz789" "Paris travel guide"])].

(** A page whose second entry is a channel: its [id] has no [videoId] and
    its [snippet] has no [thumbnails]. *)
Definition mixed_page : value :=
  Obj [("items", Arr [video_item "abc123" "Paris in 4 days";
                      Obj [("id", Obj [("kind", Str "youtube#channel")]);
                           ("snippet", Obj [("title", Str "Paris TV")])]])].

Definition env_videos : Env := world_of (fun _ => Resolved videos_page).

Definition env_mixed_videos : Env := world_of (fun _ => Resolved mixed_page).

(** The answer of the map geocoder for Paris. *)
Definition geocoded : value :=
  Obj [("results",
        Arr [Obj [("formatted_address", Str "Paris, France");
                  ("geometry",
                   Obj [("location",
                         Obj [("lat", Num (Dec false 488566 (-4)));
                              ("lng", Num (Dec false 23522 (-4)))])])]]);
       ("status", Str "OK")].

Definition env_geocoded : Env := world_of (fun _ => Resolved geocoded).

(** The table after one query by coordinates. *)
Definition stored_row : row :=
  {| id := 1;
     location := Str "48.85,2.35";
     date_from := Null;
     date_to := Null;
     weather_data := Obj [("current", paris_current); ("forecast", paris_forecast);
                          ("searchedLocation", Str "48.85,2.35")];
     created_at := Str "2026-01-01 00:00:00" |}.

Definition one_row_db : database :=
  {| weather_queries := [stored_row]; sqlite_sequence := 1 |}.

End Sample.

(* ================================================================== *)
(** * Vocabulary of the statements *)

(** Induction over values, through the lists they nest in. *)
Section ValueInduction.

Variable P : value -> Prop.
Hypothesis P_undefined : P Undefined.
Hypothesis P_null : P Null.
Hypothesis P_bool : forall b, P (Bool b).
Hypothesis P_num : forall x, P (Num x).
Hypothesis P_str : forall s, P (Str s).
Hypothesis P_arr : forall l, Forall P l -> P (Arr l).
Hypothesis P_obj : forall o, Forall (fun kv => P (snd kv)) o -> P (Obj o).

Fixpoint value_induction (v : value) : P v :=
  match v with
  | Undefined => P_undefined
  | Null => P_null
  | Bool b => P_bool b
  | Num x => P_num x
  | Str s => P_str s
  | Arr l =>
      P_arr ((fix all (l : list value) : Forall P l :=
                match l with
                | [] => Forall_nil P
                | x :: l' => Forall_cons x (value_induction x) (all l')
                end) l)
  | Obj o =>
      P_obj ((fix all (o : object) : Forall (fun kv => P (snd kv)) o :=
                match o with
                | [] => Forall_nil _
                | kv :: o' => Forall_cons kv (value_induction (snd kv)) (all o')
                end) o)
  end.

End ValueInduction.

(** [Array.prototype.join], one element at a time. *)
Definition element_text (x : value) : completion string :=
  match x with
  | Undefined | Null => Normal ""
  | _ => ToString x
  end.

(** The messages of [validateDateRange], and the answer that carries one. *)
Definition date_messages : list string :=
  ["Both dates are required"; "Invalid date format";
   "Start date must be before end date"; "End date cannot be in the future"].

Definition rejection (message : string) : response :=
  json_response 400 (error_body (Str message)).

(** The URL pairs of the three query modes. *)
Definition by_coordinates (E : Env) (lat lon : string) : urls :=
  {| current := "https://api.openweathermap.org/data/2.5/weather?lat=" ++ lat
                ++ "&lon=" ++ lon ++ "&appid=" ++ apiKey E ++ "&units=metric";
     forecast := "https://api.openweathermap.org/data/2.5/forecast?lat=" ++ lat
                 ++ "&lon=" ++ lon ++ "&appid=" ++ apiKey E ++ "&units=metric" |}.

Definition by_zip (E : Env) (code : string) : urls :=
  {| current := "https://api.openweathermap.org/data/2.5/weather?zip=" ++ code
                ++ "&appid=" ++ apiKey E ++ "&units=metric";
     forecast := "https://api.openweathermap.org/data/2.5/forecast?zip=" ++ code
                 ++ "&appid=" ++ apiKey E ++ "&units=metric" |}.

Definition by_name (E : Env) (encoded : string) : urls :=
  {| current := "https://api.openweathermap.org/data/2.5/weather?q=" ++ encoded
                ++ "&appid=" ++ apiKey E ++ "&units=metric";
     forecast := "https://api.openweathermap.org/data/2.5/forecast?q=" ++ encoded
                 ++ "&appid=" ++ apiKey E ++ "&units=metric" |}.

(** The geocoding URLs. *)
Definition direct_url (E : Env) (encoded : string) : string :=
  "https://api.openweathermap.org/geo/1.0/direct?q=" ++ encoded
  ++ "&limit=1&appid=" ++ apiKey E.

Definition reverse_url (E : Env) (lat lon : string) : string :=
  "https://api.openweathermap.org/geo/1.0/reverse?lat=" ++ lat
  ++ "&lon=" ++ lon ++ "&limit=1&appid=" ++ apiKey E.

(** The properties the handler writes on [weatherData.current]. *)
Definition written_names : list string :=
  ["coordinates"; "enhancedLocation"; "displayName"; "timezoneOffset"].

(** [o'] is the object [o] of current conditions after the handler has
    extended it, [info] being what enrichment returned: each of the four
    properties is written when the value it is copied from is truthy, and
    nothing else changes. *)
Definition augmented (o : object) (info : value) (o' : object) : Prop :=
  lookup "coordinates" o' =
    (if truthy (lookup "coord" o) then
       Obj [("lat", get (lookup "coord" o) "lat"); ("lon", get (lookup "coord" o) "lon")]
     else lookup "coordinates" o) /\
  lookup "enhancedLocation" o' =
    (if truthy info then info else lookup "enhancedLocation" o) /\
  lookup "displayName" o' =
    (if truthy info then get info "fullName" else lookup "displayName" o) /\
  lookup "timezoneOffset" o' =
    (if truthy (lookup "timezone" o) then lookup "timezone" o
     else lookup "timezoneOffset" o) /\
  (forall k, ~ In k written_names -> lookup k o' = lookup k o).

(** The answers of the handlers that carry a fixed message. *)
Definition location_required : response :=
  json_response 400 (error_body (Str "Location or coordinates required.")).

Definition fetch_failed : response :=
  json_response 500 (error_body (Str "Failed to fetch weather data.")).

Definition query_not_found : response :=
  json_response 404 (error_body (Str "Query not found")).

(** The calls of a log that invoke a resolver. *)
Definition is_resolver_call (ev : event) : bool :=
  match ev with
  | Called_getCoordinatesFromLocation _ | Called_getLocationFromCoordinates _ _ => true
  | Http_get _ => false
  end.

Definition resolver_calls (calls : list event) : list event :=
  filter is_resolver_call calls.

(** [res] is the answer to a weather request that was rejected with [r]:
    the provider's status and message when [r] is a response with a truthy
    body, the fixed 500 otherwise. *)
Definition answers_failure (r : option httpResponse) (res : response) : Prop :=
  (forall upstream, r = Some upstream -> truthy (data upstream) = true ->
     res = json_response (status upstream) (error_body (get (data upstream) "message"))) /\
  (forall upstream, r = Some upstream -> truthy (data upstream) = false ->
     res = fetch_failed) /\
  (r = None -> res = fetch_failed).

(** [searched] is the [searchedLocation] of a request: the location when
    one is supplied, and otherwise the text of [lat], a comma, and the text
    of [lon]. *)
Definition searched_for (location lat lon searched : value) : Prop :=
  (truthy location = true -> searched = location) /\
  (truthy location = false ->
   exists a b, ToString lat = Normal a /\ ToString lon = Normal b /\
               searched = Str (a ++ "," ++ b)).

(** The number of commas of a text, and the fields a reader of the CSV
    file gets by cutting a line at its commas. *)
Fixpoint commas (s : string) : nat :=
  match s with
  | "" => 0
  | String c s' => (if Ascii.eqb c "," then 1 else 0) + commas s'
  end.

Fixpoint columns (s : string) : list string :=
  match s with
  | "" => [""]
  | String c s' =>
      if Ascii.eqb c "," then "" :: columns s'
      else match columns s' with
           | field :: fields => String c field :: fields
           | [] => [String c ""]
           end
  end.

(** The seven texts a row interpolates into its line, in order: each is
    the plain [ToString] of the value, nothing is quoted or escaped. *)
Definition csv_values (r : row) : completion (list string) :=
  location <~ ToString (location r) ;;
  date_from <~ ToString (or_else (date_from r) (Str "")) ;;
  date_to <~ ToString (or_else (date_to r) (Str "")) ;;
  current <~ prop (weather_data r) "current" ;;
  main <~ prop current "main" ;;
  temp <~ prop main "temp" ;;
  temp <~ ToString temp ;;
  conditions <~ prop current "weather" ;;
  first <~ index0 conditions ;;
  condition <~ prop first "main" ;;
  condition <~ ToString condition ;;
  created_at <~ ToString (created_at r) ;;
  Normal [Number_toString (of_Z (id r)); location; date_from; date_to;
          temp ++ "°C"; condition; created_at].

(** The characters [encodeURIComponent] lets through or produces. *)
Definition url_safe (c : ascii) : bool := unreserved c || Ascii.eqb c "%".

Fixpoint all_chars (f : ascii -> bool) (s : string) : bool :=
  match s with
  | "" => true
  | String c s' => f c && all_chars f s'
  end.

(** The answers of the other routes that carry a fixed message. *)
Definition location_is_required : response :=
  json_response 400 (error_body (Str "Location is required")).

Definition no_videos (field message : string) : response :=
  json_response 200 (Obj [("videos", Arr []); (field, Str message)]).

Definition no_map (field message : string) : response :=
  json_response 200 (Obj [("map", Null); (field, Str message)]).

(** The [hit] of a statement: the rows whose [id] SQLite finds equal to the
    parameter. *)
Definition hits (E : Env) (id_param : string) (r : row) : bool :=
  sqlite_id_equals E (id r) id_param.

(** The URLs of the video search and of the map geocoder. *)
Definition youtube_url (key location : string) : string :=
  "https://www.googleapis.com/youtube/v3/search?part=snippet&q="
  ++ percent_encode (location ++ " travel guide")
  ++ "&type=video&maxResults=5&key=" ++ key.

Definition maps_url (key location : string) : string :=
  "https://maps.googleapis.com/maps/api/geocode/json?address="
  ++ percent_encode location ++ "&key=" ++ key.

(** [!key], for an environment variable. *)
Definition unset (key : option string) : Prop := key = None \/ key = Some "".

(** A body of the documented types, for what the handlers bind to the
    text columns: [location], [dateFrom] and [dateTo] are strings or are
    left out. *)
Definition text_or_absent (v : value) : Prop := v = Undefined \/ exists s, v = Str s.

Definition binds_text (body : object) : Prop :=
  text_or_absent (lookup "location" body) /\
  text_or_absent (lookup "dateFrom" body) /\
  text_or_absent (lookup "dateTo" body).

(* end of vocabulary *)

(* ================================================================== *)
(** * Properties *)

(** ** Values *)


Lemma ToString_cons (x : value) (l : list value) :
  ToString (Arr (x :: l)) =
  cbind (element_text x)
    (fun sx =>
       match l with
       | [] => Normal sx
       | _ => cbind (ToString (Arr l)) (fun sl => Normal (sx ++ "," ++ sl))
       end).
Proof. destruct x; reflexivity. Qed.

(** The only exception a conversion raises is a [TypeError]. *)
Lemma ToString_throws (v : value) (err : exn) :
  ToString v = Throw err -> err = TypeError.
Proof.
  revert err. induction v as [| |b|x|s|l Hl|o Ho] using value_induction;
    intros err; try (simpl; discriminate).
  - destruct b; discriminate.
  - induction Hl as [|x l Hx _ IH]; [discriminate|].
    rewrite ToString_cons.
    destruct (element_text x) as [sx|e] eqn:Hsx; cbn [cbind].
    + destruct l as [|y l]; [discriminate|].
      destruct (ToString (Arr (y :: l))) as [sl|e] eqn:Hsl; cbn [cbind];
        [discriminate|].
      intros [= <-]. now apply IH.
    + intros [= <-]. apply Hx. destruct x; try discriminate; exact Hsx.
  - simpl. destruct (has_own "toString" o); congruence.
Qed.

Lemma lookup_assign (k k' : string) (v : value) (o : object) :
  lookup k (assign k' v o) = if String.eqb k k' then v else lookup k o.
Proof.
  induction o as [|[k0 v0] o IH]; simpl.
  - reflexivity.
  - destruct (String.eqb k' k0) eqn:Hk0; simpl.
    + apply String.eqb_eq in Hk0; subst k0.
      destruct (String.eqb k k'); reflexivity.
    + rewrite IH. destruct (String.eqb k k0) eqn:Hk; [|reflexivity].
      apply String.eqb_eq in Hk; subst k0.
      rewrite String.eqb_sym, Hk0. reflexivity.
Qed.

(** ** Date validation *)

Section DateValidation.

Variable E : Env.

Lemma new_Date_throws (v : value) (err : exn) :
  new_Date E v = Throw err -> err = TypeError.
Proof.
  destruct v as [| |b|x|s|l|o]; unfold new_Date; try discriminate.
  - destruct (ToString (Arr l)) eqn:H; cbn [cbind]; [discriminate|].
    intros [= <-]. exact (ToString_throws _ H).
  - destruct (ToString (Obj o)) eqn:H; cbn [cbind]; [discriminate|].
    intros [= <-]. exact (ToString_throws _ H).
Qed.

Lemma validateDateRange_throws (dateFrom dateTo : value) (err : exn) :
  validateDateRange E dateFrom dateTo = Throw err -> err = TypeError.
Proof.
  unfold validateDateRange.
  destruct (negb (truthy dateFrom) || negb (truthy dateTo)); [discriminate|].
  destruct (new_Date E dateFrom) as [from|e] eqn:Hfrom; cbn [cbind].
  - destruct (new_Date E dateTo) as [to|e] eqn:Hto; cbn [cbind].
    + destruct (isNaN from || isNaN to); [discriminate|].
      destruct (date_gt from to); [discriminate|].
      destruct (date_gt to (Some (now E))); discriminate.
    + intros [= <-]. exact (new_Date_throws _ Hto).
  - intros [= <-]. exact (new_Date_throws _ Hfrom).
Qed.

Lemma date_check_throws (dateFrom dateTo : value) (err : exn) :
  date_check E dateFrom dateTo = Throw err -> err = TypeError.
Proof.
  unfold date_check. destruct (truthy dateFrom && truthy dateTo); [|discriminate].
  destruct (validateDateRange E dateFrom dateTo) as [v|e] eqn:Hv; cbn [cbind].
  - destruct (negb (valid v)); discriminate.
  - intros [= <-]. exact (validateDateRange_throws _ _ Hv).
Qed.

(** A range the check rejects is answered with 400 and one of the four
    messages of [validateDateRange]. *)
Lemma date_check_response (dateFrom dateTo : value) (res : response) :
  date_check E dateFrom dateTo = Normal (Some res) ->
  exists message, In message date_messages /\ res = rejection message.
Proof.
  unfold date_check, validateDateRange.
  destruct (truthy dateFrom && truthy dateTo); [|discriminate].
  destruct (negb (truthy dateFrom) || negb (truthy dateTo)); cbn.
  { intros [= <-]. eexists; split; [|reflexivity]. simpl; auto. }
  destruct (new_Date E dateFrom) as [from|]; [|discriminate].
  destruct (new_Date E dateTo) as [to|]; [|discriminate]. cbn.
  destruct (isNaN from || isNaN to); cbn.
  { intros [= <-]. eexists; split; [|reflexivity]. simpl; auto. }
  destruct (date_gt from to); cbn.
  { intros [= <-]. eexists; split; [|reflexivity]. simpl; auto. }
  destruct (date_gt to (Some (now E))); cbn; [|discriminate].
  intros [= <-]. eexists; split; [|reflexivity]. simpl; auto.
Qed.

(** What the check decides when both bounds are supplied and converted to
    time values: the range passes exactly when both are valid dates with
    [from <= to <= now]. *)
Lemma date_check_decides (dateFrom dateTo : value) (from to : option Z) :
  truthy dateFrom = true -> truthy dateTo = true ->
  new_Date E dateFrom = Normal from -> new_Date E dateTo = Normal to ->
  date_check E dateFrom dateTo =
  Normal match from, to with
         | Some f, Some t =>
             if (t <? f)%Z then Some (rejection "Start date must be before end date")
             else if (now E <? t)%Z then Some (rejection "End date cannot be in the future")
             else None
         | _, _ => Some (rejection "Invalid date format")
         end.
Proof.
  intros Hf Ht Hfrom Hto. unfold date_check, validateDateRange.
  rewrite Hf, Ht, Hfrom, Hto. cbn.
  destruct from as [f|], to as [t|]; cbn; try reflexivity.
  destruct (t <? f)%Z; cbn; [reflexivity|].
  destruct (now E <? t)%Z; reflexivity.
Qed.

(** With one bound missing, [validateDateRange] is not called at all. *)
Lemma date_check_skipped (dateFrom dateTo : value) :
  truthy dateFrom && truthy dateTo = false ->
  date_check E dateFrom dateTo = Normal None.
Proof. unfold date_check. now intros ->. Qed.

End DateValidation.

(** C1 (the code departs from the specification).  A request that supplies
    only one of [dateFrom]/[dateTo] is not answered with 400.
    [validateDateRange] itself rejects such a range ("Both dates are
    required"), but both handlers call it only when both bounds are
    supplied, so that check is never reached and the range is not validated
    at all.  [POST /api/weather] on [{location: "Paris", dateFrom: "not a
    date"}] succeeds with 200 and stores the row with [date_from = "not a
    date"] and no [date_to]. *)
Theorem C1_half_range_is_not_validated :
  (forall (E : Env) (d : value),
      validateDateRange E d Undefined =
        Normal {| valid := false; error := Str "Both dates are required" |} /\
      date_check E d Undefined = Normal None /\
      date_check E Undefined d = Normal None) /\
  (let out := post_api_weather Sample.env Sample.empty_db
                [("location", Str "Paris"); ("dateFrom", Str "not a date")] in
   statusCode (fst (snd out)) = 200%Z /\
   map date_from (weather_queries (snd (snd out))) = [Str "not a date"] /\
   map date_to (weather_queries (snd (snd out))) = [Null]).
Proof.
  split.
  - intros E d. split; [|split].
    + unfold validateDateRange. cbn [truthy negb]. now rewrite orb_true_r.
    + apply date_check_skipped. cbn [truthy]. apply andb_false_r.
    + apply date_check_skipped. reflexivity.
  - vm_compute. repeat split.
Qed.

(** ** Weather URLs *)

Section WeatherUrls.

Variable E : Env.

(** The three modes, as the code selects them: by the truthiness of [lat]
    and [lon], then by [type]. *)
Lemma buildWeatherUrl_modes (location lat lon type : value) :
  buildWeatherUrl E location lat lon type =
  if truthy lat && truthy lon then
    a <~ ToString lat ;; b <~ ToString lon ;; Normal (by_coordinates E a b)
  else if is_zip type then
    code <~ ToString location ;; Normal (by_zip E code)
  else
    name <~ ToString location ;; Normal (by_name E (percent_encode name)).
Proof.
  unfold buildWeatherUrl, encodeURIComponent.
  destruct (truthy lat && truthy lon); [reflexivity|].
  destruct (is_zip type); [reflexivity|].
  destruct (ToString location); reflexivity.
Qed.

Lemma buildWeatherUrl_throws (location lat lon type : value) (err : exn) :
  buildWeatherUrl E location lat lon type = Throw err -> err = TypeError.
Proof.
  rewrite buildWeatherUrl_modes.
  destruct (truthy lat && truthy lon).
  - destruct (ToString lat) eqn:Ha; cbn [cbind].
    + destruct (ToString lon) eqn:Hb; cbn [cbind]; [discriminate|].
      intros [= <-]. exact (ToString_throws _ Hb).
    + intros [= <-]. exact (ToString_throws _ Ha).
  - destruct (is_zip type);
      (destruct (ToString location) eqn:Hl; cbn [cbind]; [discriminate|];
       intros [= <-]; exact (ToString_throws _ Hl)).
Qed.

End WeatherUrls.

(** C2 (the code departs from the specification).  [buildWeatherUrl] does not query
    by coordinates whenever both are given: it tests [lat && lon], and a
    latitude of 0 is falsy.  For a point on the equator, with no location
    and no type, both URLs are built in free-text mode and ask for the
    place named "undefined", whatever the longitude is. *)
Theorem C2_equator_is_queried_by_name :
  forall (E : Env) (lon : value),
    buildWeatherUrl E Undefined (Num (Zero false)) lon Undefined =
    Normal
      {| current := "https://api.openweathermap.org/data/2.5/weather?q=undefined&appid="
                    ++ apiKey E ++ "&units=metric";
         forecast := "https://api.openweathermap.org/data/2.5/forecast?q=undefined&appid="
                     ++ apiKey E ++ "&units=metric" |}.
Proof. intros E lon. reflexivity. Qed.

(** ** Computations *)

Lemma bind_lift_normal {A B} (a : A) (f : A -> M B) : bind (lift (Normal a)) f = f a.
Proof. unfold bind, lift. now destruct (f a). Qed.

Lemma bind_emit {B} (ev : event) (m : M B) :
  bind (emit ev) (fun _ => m) = (ev :: fst m, snd m).
Proof. unfold bind, emit. now destruct m. Qed.

Lemma bind_normal {A B} (l : list event) (a : A) (f : A -> M B) :
  bind (l, Normal a) f = ((l ++ fst (f a))%list, snd (f a)).
Proof. unfold bind. now destruct (f a). Qed.

Lemma bind_pair {A B} (l : list event) (c : completion A) (f : A -> M B) :
  bind (l, c) f =
  match c with
  | Normal a => ((l ++ fst (f a))%list, snd (f a))
  | Throw err => (l, Throw err)
  end.
Proof. destruct c; [apply bind_normal | reflexivity]. Qed.

(** ** Geocoding *)

Section Geocoding.

Variable E : Env.

Lemma getCoordinatesFromLocation_unfold (location : value) :
  getCoordinatesFromLocation E location =
  (Called_getCoordinatesFromLocation location
     :: fst (getCoordinatesFromLocation_try E location),
   match snd (getCoordinatesFromLocation_try E location) with
   | Normal v => Normal v
   | Throw _ => Normal Null
   end).
Proof.
  unfold getCoordinatesFromLocation. rewrite bind_emit.
  destruct (getCoordinatesFromLocation_try E location) as [l [v|err]]; simpl;
    [reflexivity|]. now rewrite app_nil_r.
Qed.

Lemma getLocationFromCoordinates_unfold (lat lon : value) :
  getLocationFromCoordinates E lat lon =
  (Called_getLocationFromCoordinates lat lon
     :: fst (getLocationFromCoordinates_try E lat lon),
   match snd (getLocationFromCoordinates_try E lat lon) with
   | Normal v => Normal v
   | Throw _ => Normal Null
   end).
Proof.
  unfold getLocationFromCoordinates. rewrite bind_emit.
  destruct (getLocationFromCoordinates_try E lat lon) as [l [v|err]]; simpl;
    [reflexivity|]. now rewrite app_nil_r.
Qed.

(** Neither resolver ever throws. *)
Lemma getCoordinatesFromLocation_returns (location : value) :
  exists calls v,
    getCoordinatesFromLocation E location =
    (Called_getCoordinatesFromLocation location :: calls, Normal v).
Proof.
  rewrite getCoordinatesFromLocation_unfold.
  destruct (snd (getCoordinatesFromLocation_try E location)); eauto.
Qed.

Lemma getLocationFromCoordinates_returns (lat lon : value) :
  exists calls v,
    getLocationFromCoordinates E lat lon =
    (Called_getLocationFromCoordinates lat lon :: calls, Normal v).
Proof.
  rewrite getLocationFromCoordinates_unfold.
  destruct (snd (getLocationFromCoordinates_try E lat lon)); eauto.
Qed.

Lemma axios_get_await_eq (url : string) :
  axios_get_await E url =
  ([Http_get url],
   match axios_get E url with
   | Resolved payload => Normal payload
   | Rejected r => Throw (AxiosError r)
   end).
Proof. unfold axios_get_await. now rewrite bind_emit. Qed.

(** The [try] block of each resolver, once its URL is built. *)
Lemma getCoordinatesFromLocation_try_request (location : value) (q : string) :
  encodeURIComponent location = Normal q ->
  snd (getCoordinatesFromLocation_try E location) =
  match axios_get E (direct_url E q) with
  | Rejected r => Throw (AxiosError r)
  | Resolved payload =>
      snd (found <- lift (has_results E payload) ;;
           if found then
             lift (place <~ index0 payload ;;
                   lat <~ prop place "lat" ;;
                   lon <~ prop place "lon" ;;
                   name <~ prop place "name" ;;
                   country <~ prop place "country" ;;
                   state <~ prop place "state" ;;
                   fullName <~ fullName_of place ;;
                   Normal (Obj [("lat", lat); ("lon", lon); ("name", name);
                                ("country", country); ("state", or_else state Null);
                                ("fullName", Str fullName)]))
           else ret Null)
  end.
Proof.
  intros Hq. unfold getCoordinatesFromLocation_try. rewrite Hq. cbn [cbind].
  rewrite bind_lift_normal. fold (direct_url E q).
  rewrite axios_get_await_eq.
  destruct (axios_get E (direct_url E q)) as [payload|r].
  - rewrite bind_normal. reflexivity.
  - reflexivity.
Qed.

Lemma getLocationFromCoordinates_try_request (lat lon : value) (a b : string) :
  ToString lat = Normal a -> ToString lon = Normal b ->
  snd (getLocationFromCoordinates_try E lat lon) =
  match axios_get E (reverse_url E a b) with
  | Rejected r => Throw (AxiosError r)
  | Resolved payload =>
      snd (found <- lift (has_results E payload) ;;
           if found then
             lift (place <~ index0 payload ;;
                   name <~ prop place "name" ;;
                   country <~ prop place "country" ;;
                   state <~ prop place "state" ;;
                   fullName <~ fullName_of place ;;
                   Normal (Obj [("lat", Num (parseFloat E a)); ("lon", Num (parseFloat E b));
                                ("name", name); ("country", country);
                                ("state", or_else state Null);
                                ("fullName", Str fullName)]))
           else ret Null)
  end.
Proof.
  intros Ha Hb. unfold getLocationFromCoordinates_try. rewrite Ha, Hb. cbn [cbind].
  rewrite bind_lift_normal. fold (reverse_url E a b).
  rewrite axios_get_await_eq.
  destruct (axios_get E (reverse_url E a b)) as [payload|r].
  - rewrite bind_normal. reflexivity.
  - reflexivity.
Qed.

End Geocoding.

(** ** [POST /api/weather] *)

Section PostWeather.

Variable E : Env.

Lemma bind_lift {A B} (c : completion A) (f : A -> M B) :
  bind (lift c) f =
  match c with
  | Normal a => f a
  | Throw err => ([], Throw err)
  end.
Proof. destruct c; [apply bind_lift_normal | reflexivity]. Qed.

Lemma fetch_weather_eq (u : urls) :
  fetch_weather E u =
  ([Http_get (current u); Http_get (forecast u)],
   Promise_all E (axios_get E (current u)) (axios_get E (forecast u))).
Proof. unfold fetch_weather. now rewrite !bind_emit. Qed.

(** Enrichment never throws, and it logs a call exactly when it calls a
    resolver. *)
Lemma enrich_returns (location lat lon : value) :
  exists calls info, enrich E location lat lon = (calls, Normal info).
Proof.
  unfold enrich.
  destruct (truthy location && negb (truthy lat) && negb (truthy lon)).
  - destruct (getCoordinatesFromLocation_returns E location) as (l & v & ->); eauto.
  - destruct (truthy lat && truthy lon && negb (truthy location)).
    + destruct (getLocationFromCoordinates_returns E lat lon) as (l & v & ->); eauto.
    + unfold ret; eauto.
Qed.

(** The handler after its two checks, step by step. *)
Lemma fetch_and_store_unfold (db : database)
    (location lat lon type dateFrom dateTo : value) (calls : list event) (info : value) :
  enrich E location lat lon = (calls, Normal info) ->
  fetch_and_store E db location lat lon type dateFrom dateTo =
  match buildWeatherUrl E location lat lon type with
  | Throw err => (calls, Throw err)
  | Normal u =>
      ((calls ++ [Http_get (current u); Http_get (forecast u)])%list,
       responses <~ Promise_all E (axios_get E (current u)) (axios_get E (forecast u)) ;;
       searched <~ searchedLocation location lat lon ;;
       current <~ augment (fst responses) info ;;
       Normal
         (json_response 200
            (Obj [("current", current); ("forecast", snd responses);
                  ("searchedLocation", searched)]),
          sql_insert E db searched (or_else dateFrom Null) (or_else dateTo Null)
            (JSON_image
               (Obj [("current", current); ("forecast", snd responses);
                     ("searchedLocation", searched)]))))
  end.
Proof.
  intros Henrich. unfold fetch_and_store. rewrite Henrich, bind_normal, bind_lift.
  destruct (buildWeatherUrl E location lat lon type) as [u|err]; cbn [fst snd].
  2: now rewrite app_nil_r.
  rewrite fetch_weather_eq, bind_pair.
  destruct (Promise_all E (axios_get E (current u)) (axios_get E (forecast u)))
    as [responses|err]; cbn [cbind fst snd].
  2: reflexivity.
  rewrite bind_lift.
  destruct (searchedLocation location lat lon) as [searched|err]; cbn [cbind fst snd].
  2: now rewrite app_nil_r.
  rewrite bind_lift.
  destruct (augment (fst responses) info) as [cur|err]; cbn [cbind fst snd ret].
  all: now rewrite app_nil_r.
Qed.

(** The handler, from the request to its answer. *)
Lemma post_api_weather_try_unfold (db : database) (body : object) :
  post_api_weather_try E db body =
  match presence_check (lookup "location" body) (lookup "lat" body) (lookup "lon" body) with
  | Some res => ([], Normal (res, db))
  | None =>
      match date_check E (lookup "dateFrom" body) (lookup "dateTo" body) with
      | Throw err => ([], Throw err)
      | Normal (Some res) => ([], Normal (res, db))
      | Normal None =>
          fetch_and_store E db (lookup "location" body) (lookup "lat" body)
            (lookup "lon" body) (lookup "type" body) (lookup "dateFrom" body)
            (lookup "dateTo" body)
      end
  end.
Proof.
  unfold post_api_weather_try.
  destruct (presence_check _ _ _); [reflexivity|].
  rewrite bind_lift.
  destruct (date_check E _ _) as [[res|]|err]; reflexivity.
Qed.

(** What the extension of [current] does to an object. *)
Lemma augment_object (o : object) (info : value) :
  exists o', augment (Obj o) info = Normal (Obj o') /\ augmented o info o'.
Proof.
  unfold augment, augmented. cbn [prop get cbind].
  destruct (truthy (lookup "coord" o)) eqn:Hcoord;
    destruct (truthy info) eqn:Hinfo; cbn [set_prop prop get cbind];
    rewrite ?lookup_assign; cbn [String.eqb Ascii.eqb Bool.eqb];
    destruct (truthy (lookup "timezone" o)) eqn:Htz; cbn [set_prop];
    eexists; (split; [reflexivity|]);
    rewrite ?lookup_assign; cbn [String.eqb Ascii.eqb Bool.eqb];
    repeat split; try reflexivity.
  all: intros k Hk; rewrite ?lookup_assign;
    repeat match goal with
           | |- context [String.eqb k ?s] =>
               let H := fresh in
               destruct (String.eqb k s) eqn:H;
               [apply String.eqb_eq in H; subst k; exfalso; apply Hk; simpl; tauto|]
           end; reflexivity.
Qed.

(** Anything else than an object comes back unchanged. *)
Lemma augment_other (v info : value) :
  (forall o, v <> Obj o) -> v <> Undefined -> v <> Null ->
  augment v info = Normal v.
Proof.
  intros Hobj Hu Hn. unfold augment.
  destruct v; try congruence; try (now destruct (Hobj properties));
    cbn [prop get cbind truthy set_prop]; destruct (truthy info); reflexivity.
Qed.

End PostWeather.

Section PostWeatherCalls.

Variable E : Env.

Lemma post_api_weather_calls (db : database) (body : object) :
  fst (post_api_weather E db body) = fst (post_api_weather_try E db body).
Proof.
  unfold post_api_weather.
  now destruct (post_api_weather_try E db body) as [calls [out|err]].
Qed.

Lemma post_api_weather_answer (db : database) (body : object) :
  snd (post_api_weather E db body) =
  match snd (post_api_weather_try E db body) with
  | Normal out => out
  | Throw err => (weather_error_response err, db)
  end.
Proof.
  unfold post_api_weather.
  now destruct (post_api_weather_try E db body) as [calls [out|err]].
Qed.

(** The [try] block of a resolver makes no call but its HTTP request. *)
Lemma getCoordinatesFromLocation_try_calls (location : value) :
  resolver_calls (fst (getCoordinatesFromLocation_try E location)) = [].
Proof.
  unfold getCoordinatesFromLocation_try. rewrite bind_lift.
  destruct (cbind (encodeURIComponent location) _) as [url|err]; [|reflexivity].
  rewrite axios_get_await_eq, bind_pair.
  destruct (axios_get E url) as [payload|r]; [|reflexivity].
  rewrite bind_lift.
  destruct (has_results E payload) as [[|]|err]; reflexivity.
Qed.

Lemma getLocationFromCoordinates_try_calls (lat lon : value) :
  resolver_calls (fst (getLocationFromCoordinates_try E lat lon)) = [].
Proof.
  unfold getLocationFromCoordinates_try. rewrite bind_lift.
  destruct (cbind (ToString lat) _) as [url|err]; [|reflexivity].
  rewrite axios_get_await_eq, bind_pair.
  destruct (axios_get E url) as [payload|r]; [|reflexivity].
  rewrite bind_lift.
  destruct (has_results E payload) as [[|]|err]; reflexivity.
Qed.

(** The resolver calls of enrichment, as the code selects them. *)
Lemma enrich_calls (location lat lon : value) :
  resolver_calls (fst (enrich E location lat lon)) =
  if truthy location && negb (truthy lat) && negb (truthy lon) then
    [Called_getCoordinatesFromLocation location]
  else if truthy lat && truthy lon && negb (truthy location) then
    [Called_getLocationFromCoordinates lat lon]
  else [].
Proof.
  unfold enrich.
  destruct (truthy location && negb (truthy lat) && negb (truthy lon)).
  - rewrite getCoordinatesFromLocation_unfold. cbn [fst resolver_calls filter is_resolver_call].
    fold (resolver_calls (fst (getCoordinatesFromLocation_try E location))).
    now rewrite getCoordinatesFromLocation_try_calls.
  - destruct (truthy lat && truthy lon && negb (truthy location)); [|reflexivity].
    rewrite getLocationFromCoordinates_unfold.
    cbn [fst resolver_calls filter is_resolver_call].
    fold (resolver_calls (fst (getLocationFromCoordinates_try E lat lon))).
    now rewrite getLocationFromCoordinates_try_calls.
Qed.

(** The calls of a request that passed both checks: those of enrichment,
    then the two weather requests if their URLs could be built. *)
Lemma fetch_and_store_calls (db : database)
    (location lat lon type dateFrom dateTo : value) :
  fst (fetch_and_store E db location lat lon type dateFrom dateTo) =
  (fst (enrich E location lat lon) ++
   match buildWeatherUrl E location lat lon type with
   | Normal u => [Http_get (current u); Http_get (forecast u)]
   | Throw _ => []
   end)%list.
Proof.
  destruct (enrich_returns E location lat lon) as (calls & info & Henrich).
  rewrite (@fetch_and_store_unfold E db _ _ _ type dateFrom dateTo _ _ Henrich), Henrich.
  destruct (buildWeatherUrl E location lat lon type); cbn [fst].
  - reflexivity.
  - now rewrite app_nil_r.
Qed.

End PostWeatherCalls.

(** A request that passed the presence check is never answered with
    "Location or coordinates required." before a provider is called. *)
Lemma passed_request_is_not_refused (E : Env) (db : database) (body : object) :
  presence_check (lookup "location" body) (lookup "lat" body) (lookup "lon" body) = None ->
  post_api_weather E db body <> ([], (location_required, db)).
Proof.
  intros Hpresence. unfold post_api_weather.
  rewrite post_api_weather_try_unfold, Hpresence.
  destruct (date_check E _ _) as [[res|]|err] eqn:Hdate.
  - destruct (date_check_response _ _ _ Hdate) as (m & Hm & ->).
    simpl in Hm. intros [= Hbody].
    repeat (destruct Hm as [<-|Hm]; [discriminate Hbody|]). exact Hm.
  - pose proof (fetch_and_store_calls E db (lookup "location" body)
                  (lookup "lat" body) (lookup "lon" body) (lookup "type" body)
                  (lookup "dateFrom" body) (lookup "dateTo" body)) as Hcalls.
    destruct (enrich_returns E (lookup "location" body) (lookup "lat" body)
                (lookup "lon" body)) as (l & info & Hen).
    pose proof (@fetch_and_store_unfold E db _ _ _ (lookup "type" body)
                  (lookup "dateFrom" body) (lookup "dateTo" body) _ _ Hen) as Hunf.
    destruct (fetch_and_store E db _ _ _ _ _ _) as [calls c].
    cbn [fst] in Hcalls.
    destruct (buildWeatherUrl E _ _ _ _) eqn:Hurl.
    + destruct c; intros [= Hnil]; rewrite Hnil in Hcalls;
        symmetry in Hcalls; apply app_eq_nil in Hcalls; now destruct Hcalls.
    + injection Hunf as _ ->.
      rewrite (buildWeatherUrl_throws _ _ _ _ _ Hurl). discriminate.
  - rewrite (date_check_throws _ _ _ Hdate). discriminate.
Qed.

(** C3.  [POST /api/weather] answers 400 "Location or coordinates
    required." from its presence check, that is before calling any provider
    and without touching the table, if and only if the body supplies
    neither a (non-empty) location nor both [lat] and [lon]; and the
    presence check lets the request through exactly when a location or
    both coordinates are supplied. *)
Theorem C3_location_or_coordinates_required (E : Env) (db : database) (body : object) :
  let location := lookup "location" body in
  let lat := lookup "lat" body in
  let lon := lookup "lon" body in
  (post_api_weather E db body = ([], (location_required, db))
   <-> truthy location = false /\ (lat = Undefined \/ lon = Undefined)) /\
  (presence_check location lat lon = None
   <-> truthy location = true \/ (lat <> Undefined /\ lon <> Undefined)).
Proof.
  intros location lat lon.
  assert (Hundef : forall v, is_undefined v = true <-> v = Undefined).
  { intros v; destruct v; simpl; split; congruence. }
  assert (Hcheck : presence_check location lat lon = None
                   <-> truthy location = true \/ (lat <> Undefined /\ lon <> Undefined)).
  { unfold presence_check.
    destruct (truthy location); cbn [negb andb]; [tauto|].
    destruct (is_undefined lat) eqn:Hlat; cbn [orb].
    - apply Hundef in Hlat. split; [discriminate|]. intros [|[]]; congruence.
    - destruct (is_undefined lon) eqn:Hlon.
      + apply Hundef in Hlon. split; [discriminate|]. intros [|[]]; congruence.
      + split; [|reflexivity]. intros _. right.
        split; intros H; apply Hundef in H; congruence. }
  split; [|exact Hcheck].
  split.
  - intros Hpost.
    destruct (presence_check location lat lon) eqn:Hpresence.
    + destruct (truthy location) eqn:Hloc.
      { discriminate (proj2 Hcheck (or_introl eq_refl)). }
      split; [reflexivity|].
      destruct (is_undefined lat) eqn:Hlat; [left; now apply Hundef|].
      destruct (is_undefined lon) eqn:Hlon; [right; now apply Hundef|].
      assert (Hnone : Some r = None); [|discriminate Hnone].
      apply Hcheck. right. split; intros H; apply Hundef in H; congruence.
    + now destruct (@passed_request_is_not_refused E db body Hpresence).
  - intros [Hloc Hcoord]. unfold post_api_weather.
    rewrite post_api_weather_try_unfold. fold location lat lon.
    unfold presence_check. rewrite Hloc.
    destruct Hcoord as [-> | ->]; cbn [negb andb orb is_undefined].
    + reflexivity.
    + now rewrite orb_true_r.
Qed.

(** C9, counterexample.  Two bodies that supply [lat = 0], [lon = 0] and
    no location, and for which the weather URLs are not the free-text
    ones.  With [type: "zip"] the two requests are made in zip mode, for
    the zip code "undefined"; with a date range that ends in the future
    the date check answers 400 and no URL is built at all. *)
Lemma C9_counterexample :
  let zero := Num (Zero false) in
  let zip := [("lat", zero); ("lon", zero); ("type", Str "zip")] in
  let late := [("lat", zero); ("lon", zero);
               ("dateFrom", Str "2024-01-01"); ("dateTo", Str "2031-01-01")] in
  presence_check (lookup "location" zip) (lookup "lat" zip) (lookup "lon" zip) = None /\
  fst (post_api_weather Sample.env Sample.empty_db zip) =
    [Http_get "https://api.openweathermap.org/data/2.5/weather?zip=undefined&appid=KEY&units=metric";
     Http_get "https://api.openweathermap.org/data/2.5/forecast?zip=undefined&appid=KEY&units=metric"]
  /\ presence_check (lookup "location" late) (lookup "lat" late) (lookup "lon" late) = None
  /\ post_api_weather Sample.env Sample.empty_db late
     = ([], (rejection "End date cannot be in the future", Sample.empty_db)).
Proof. vm_compute. repeat split. Qed.

(** C9, amended.  A body that supplies [lat = 0] and [lon = 0] (of either
    sign) and no location, whose [type] is not "zip" and whose dates pass
    the date check, passes the presence check, which only tests for
    [undefined]; but zero is falsy, so no resolver is called, the two
    weather URLs are built in free-text mode for the name "undefined"
    ([by_name E "undefined"] is the pair [...?q=undefined&appid=...]), these
    are the only requests made, [searchedLocation] is computed as "0,0",
    and when both requests succeed the answer is 200 with
    [searchedLocation = "0,0"]. *)
Theorem C9_zero_coordinates (E : Env) (db : database) (body : object) (a b : bool) :
  lookup "location" body = Undefined ->
  lookup "lat" body = Num (Zero a) ->
  lookup "lon" body = Num (Zero b) ->
  is_zip (lookup "type" body) = false ->
  date_check E (lookup "dateFrom" body) (lookup "dateTo" body) = Normal None ->
  let u := by_name E "undefined" in
  presence_check Undefined (Num (Zero a)) (Num (Zero b)) = None /\
  enrich E Undefined (Num (Zero a)) (Num (Zero b)) = ([], Normal Null) /\
  buildWeatherUrl E Undefined (Num (Zero a)) (Num (Zero b)) (lookup "type" body)
  = Normal u /\
  searchedLocation Undefined (Num (Zero a)) (Num (Zero b)) = Normal (Str "0,0") /\
  fst (post_api_weather E db body) = [Http_get (current u); Http_get (forecast u)] /\
  (forall (cur : object) (fc : value),
      axios_get E (current u) = Resolved (Obj cur) ->
      axios_get E (forecast u) = Resolved fc ->
      let res := fst (snd (post_api_weather E db body)) in
      statusCode res = 200%Z /\
      get (sent res) "searchedLocation" = Str "0,0" /\
      get (sent res) "forecast" = fc).
Proof.
  intros Hloc Hlat Hlon Htype Hdate u.
  assert (Hen : enrich E Undefined (Num (Zero a)) (Num (Zero b)) = ([], Normal Null))
    by reflexivity.
  assert (Hurl : buildWeatherUrl E Undefined (Num (Zero a)) (Num (Zero b))
                   (lookup "type" body) = Normal u).
  { unfold buildWeatherUrl. cbn [truthy andb]. now rewrite Htype. }
  assert (Htry : post_api_weather_try E db body =
                 fetch_and_store E db Undefined (Num (Zero a)) (Num (Zero b))
                   (lookup "type" body) (lookup "dateFrom" body) (lookup "dateTo" body)).
  { rewrite post_api_weather_try_unfold, Hdate, Hloc, Hlat, Hlon. reflexivity. }
  assert (Hanswer : forall (cur : object) (fc : value),
             axios_get E (current u) = Resolved (Obj cur) ->
             axios_get E (forecast u) = Resolved fc ->
             exists o',
               fst (snd (post_api_weather E db body)) =
               json_response 200
                 (Obj [("current", Obj o'); ("forecast", fc);
                       ("searchedLocation", Str "0,0")])).
  { intros cur fc Hcur Hfc. rewrite post_api_weather_answer, Htry.
    rewrite (@fetch_and_store_unfold E db _ _ _ _ _ _ _ _ Hen).
    rewrite Hurl, Hcur, Hfc. cbn [snd fst Promise_all cbind searchedLocation truthy].
    destruct (augment_object cur Null) as (o' & -> & _). exists o'. reflexivity. }
  split; [reflexivity|]. split; [exact Hen|]. split; [exact Hurl|].
  split; [reflexivity|]. split.
  - rewrite post_api_weather_calls, Htry, fetch_and_store_calls, Hen, Hurl.
    reflexivity.
  - intros cur fc Hcur Hfc res.
    destruct (Hanswer cur fc Hcur Hfc) as (o' & Hres).
    unfold res. rewrite Hres. repeat split.
Qed.

(** The requests [{lat: 0, lon: 0}] and [{lat: 0, lon: 0, type: "city"}],
    the second with a range of past dates, in the sample world. *)
Lemma C9_zero_coordinates_witness :
  let out := post_api_weather Sample.env Sample.empty_db
               [("lat", Num (Zero false)); ("lon", Num (Zero false))] in
  let out' := post_api_weather Sample.env Sample.empty_db
                [("lat", Num (Zero false)); ("lon", Num (Zero false));
                 ("type", Str "city");
                 ("dateFrom", Str "2024-01-01"); ("dateTo", Str "2024-01-31")] in
  fst out =
    [Http_get "https://api.openweathermap.org/data/2.5/weather?q=undefined&appid=KEY&units=metric";
     Http_get "https://api.openweathermap.org/data/2.5/forecast?q=undefined&appid=KEY&units=metric"]
  /\ statusCode (fst (snd out)) = 200%Z
  /\ get (sent (fst (snd out))) "searchedLocation" = Str "0,0"
  /\ fst out' = fst out
  /\ get (sent (fst (snd out'))) "searchedLocation" = Str "0,0".
Proof.
  pose proof (@C9_zero_coordinates Sample.env Sample.empty_db
                [("lat", Num (Zero false)); ("lon", Num (Zero false))] false false
                eq_refl eq_refl eq_refl eq_refl eq_refl)
    as (_ & _ & _ & _ & Hcalls & Hok).
  pose proof (@C9_zero_coordinates Sample.env Sample.empty_db
                [("lat", Num (Zero false)); ("lon", Num (Zero false));
                 ("type", Str "city");
                 ("dateFrom", Str "2024-01-01"); ("dateTo", Str "2024-01-31")]
                false false eq_refl eq_refl eq_refl eq_refl eq_refl)
    as (_ & _ & _ & _ & Hcalls' & Hok').
  destruct (Hok _ _ eq_refl eq_refl) as (Hstatus & Hsearched & _).
  destruct (Hok' _ _ eq_refl eq_refl) as (_ & Hsearched' & _).
  cbv zeta. rewrite Hcalls'.
  split; [exact Hcalls|]. split; [exact Hstatus|]. split; [exact Hsearched|].
  split; [now rewrite Hcalls | exact Hsearched'].
Defined.

Lemma absent_or_truthy (v : value) :
  v = Undefined \/ truthy v = true -> negb (truthy v) = is_undefined v.
Proof.
  intros [-> | H]; [reflexivity|]. rewrite H. destruct v; try reflexivity.
  discriminate H.
Qed.

(** C6, counterexample.  The body [{location: "Paris", lat: 48.85}]
    supplies a location and no coordinate pair ([lon] is missing), so
    exactly one of the two is supplied; yet no resolver is called: the
    only calls are the two weather requests, and the answer is 200. *)
Lemma C6_counterexample :
  let body := [("location", Str "Paris"); ("lat", Num (Dec false 4885 (-2)))] in
  let out := post_api_weather Sample.env Sample.empty_db body in
  truthy (lookup "location" body) = true /\
  lookup "lon" body = Undefined /\
  resolver_calls (fst out) = [] /\
  fst out =
    [Http_get "https://api.openweathermap.org/data/2.5/weather?q=Paris&appid=KEY&units=metric";
     Http_get "https://api.openweathermap.org/data/2.5/forecast?q=Paris&appid=KEY&units=metric"]
  /\ statusCode (fst (snd out)) = 200%Z.
Proof. vm_compute. repeat split. Qed.

(** C6, amended.  For a request that passes the presence check and the
    date check, and in which each of [lat] and [lon] is either absent or
    truthy: the forward resolver is called, once, exactly when a location
    is supplied and neither [lat] nor [lon] is; the reverse resolver is
    called, once, exactly when both [lat] and [lon] are supplied and no
    location is; in every other case (a location together with one or both
    coordinates) no resolver is called.  In all cases enrichment completes
    without throwing. *)
Theorem C6_enrichment_dispatch (E : Env) (db : database) (body : object) :
  let location := lookup "location" body in
  let lat := lookup "lat" body in
  let lon := lookup "lon" body in
  presence_check location lat lon = None ->
  date_check E (lookup "dateFrom" body) (lookup "dateTo" body) = Normal None ->
  lat = Undefined \/ truthy lat = true ->
  lon = Undefined \/ truthy lon = true ->
  resolver_calls (fst (post_api_weather E db body)) =
    (if truthy location && is_undefined lat && is_undefined lon then
       [Called_getCoordinatesFromLocation location]
     else if negb (truthy location) && negb (is_undefined lat) && negb (is_undefined lon) then
       [Called_getLocationFromCoordinates lat lon]
     else []) /\
  exists calls info, enrich E location lat lon = (calls, Normal info).
Proof.
  intros location lat lon Hpresence Hdate Hlat Hlon.
  split; [|apply enrich_returns].
  rewrite post_api_weather_calls, post_api_weather_try_unfold.
  fold location lat lon. rewrite Hpresence, Hdate, fetch_and_store_calls.
  unfold resolver_calls at 1. rewrite filter_app.
  fold (resolver_calls (fst (enrich E location lat lon))). rewrite enrich_calls.
  assert (Hgets : filter is_resolver_call
                    match buildWeatherUrl E location lat lon (lookup "type" body) with
                    | Normal u => [Http_get (current u); Http_get (forecast u)]
                    | Throw _ => []
                    end = []).
  { now destruct (buildWeatherUrl E location lat lon (lookup "type" body)). }
  rewrite Hgets, app_nil_r.
  pose proof (absent_or_truthy Hlat) as Hl.
  pose proof (absent_or_truthy Hlon) as Hl'.
  rewrite Hl, Hl'.
  destruct (truthy location && is_undefined lat && is_undefined lon); [reflexivity|].
  replace (truthy lat && truthy lon && negb (truthy location))
    with (negb (truthy location) && negb (is_undefined lat) && negb (is_undefined lon)).
  - reflexivity.
  - rewrite <- Hl, <- Hl', !negb_involutive.
    destruct (truthy location), (truthy lat), (truthy lon); reflexivity.
Qed.

(** The three dispatch cases in the sample world: a location alone, a
    coordinate pair alone, and both together. *)
Lemma C6_enrichment_dispatch_witness :
  resolver_calls (fst (post_api_weather Sample.env Sample.empty_db
                         [("location", Str "Paris")]))
  = [Called_getCoordinatesFromLocation (Str "Paris")] /\
  resolver_calls (fst (post_api_weather Sample.env Sample.empty_db
                         [("lat", Num (Dec false 4885 (-2)));
                          ("lon", Num (Dec false 235 (-2)))]))
  = [Called_getLocationFromCoordinates (Num (Dec false 4885 (-2)))
       (Num (Dec false 235 (-2)))] /\
  resolver_calls (fst (post_api_weather Sample.env Sample.empty_db
                         [("location", Str "Paris");
                          ("lat", Num (Dec false 4885 (-2)));
                          ("lon", Num (Dec false 235 (-2)))]))
  = [].
Proof.
  split; [|split].
  - exact (proj1 (@C6_enrichment_dispatch Sample.env Sample.empty_db
                    [("location", Str "Paris")]
                    eq_refl eq_refl (or_introl eq_refl) (or_introl eq_refl))).
  - exact (proj1 (@C6_enrichment_dispatch Sample.env Sample.empty_db
                    [("lat", Num (Dec false 4885 (-2)));
                     ("lon", Num (Dec false 235 (-2)))]
                    eq_refl eq_refl (or_intror eq_refl) (or_intror eq_refl))).
  - exact (proj1 (@C6_enrichment_dispatch Sample.env Sample.empty_db
                    [("location", Str "Paris");
                     ("lat", Num (Dec false 4885 (-2)));
                     ("lon", Num (Dec false 235 (-2)))]
                    eq_refl eq_refl (or_intror eq_refl) (or_intror eq_refl))).
Defined.

(** ** Upstream failures *)

Lemma weather_error_response_answers (r : option httpResponse) :
  answers_failure r (weather_error_response (AxiosError r)).
Proof.
  unfold answers_failure, weather_error_response.
  destruct r as [upstream|].
  - destruct (truthy (data upstream)) eqn:Hdata; repeat split;
      try discriminate; intros up [= <-]; congruence.
  - repeat split; try reflexivity; discriminate.
Qed.

(** C4, counterexample.  The forecast request fails and the failure carries
    the upstream response, a 502 whose body is empty; the handler does not
    answer with the upstream status but with the fixed 500. *)
Lemma C4_counterexample :
  let out := post_api_weather Sample.env_bad_gateway Sample.empty_db
               [("location", Str "Paris")] in
  axios_get Sample.env_bad_gateway
    "https://api.openweathermap.org/data/2.5/forecast?q=Paris&appid=KEY&units=metric"
  = Rejected (Some {| status := 502; data := Str "" |}) /\
  fst (snd out) = fetch_failed /\
  statusCode (fst (snd out)) <> 502%Z.
Proof. vm_compute. repeat split. discriminate. Qed.

(** C4, amended.  For a request that passes both checks and whose URLs are
    built: if a weather request is rejected, the whole request fails and
    the table is left alone; the answer carries the provider's status and
    the [message] of its body when the rejection that comes first has a
    response with a truthy body, and is the fixed 500 "Failed to fetch
    weather data." otherwise (no response, or an empty body).  The [try]
    block completes only when both requests succeed. *)
Theorem C4_upstream_failure (E : Env) (db : database) (body : object) (u : urls) :
  let location := lookup "location" body in
  let lat := lookup "lat" body in
  let lon := lookup "lon" body in
  presence_check location lat lon = None ->
  date_check E (lookup "dateFrom" body) (lookup "dateTo" body) = Normal None ->
  buildWeatherUrl E location lat lon (lookup "type" body) = Normal u ->
  let out := snd (post_api_weather E db body) in
  (forall r c,
      axios_get E (current u) = Rejected r -> axios_get E (forecast u) = Resolved c ->
      answers_failure r (fst out) /\ snd out = db) /\
  (forall r c,
      axios_get E (current u) = Resolved c -> axios_get E (forecast u) = Rejected r ->
      answers_failure r (fst out) /\ snd out = db) /\
  (forall ra rb,
      axios_get E (current u) = Rejected ra -> axios_get E (forecast u) = Rejected rb ->
      answers_failure (if forecast_rejects_first E then rb else ra) (fst out) /\
      snd out = db) /\
  (forall calls res db',
      post_api_weather_try E db body = (calls, Normal (res, db')) ->
      exists c f, axios_get E (current u) = Resolved c /\
                  axios_get E (forecast u) = Resolved f).
Proof.
  intros location lat lon Hpresence Hdate Hurl out.
  destruct (enrich_returns E location lat lon) as (l & info & Hen).
  assert (Htry : post_api_weather_try E db body =
                 ((l ++ [Http_get (current u); Http_get (forecast u)])%list,
                  responses <~ Promise_all E (axios_get E (current u))
                                 (axios_get E (forecast u)) ;;
                  searched <~ searchedLocation location lat lon ;;
                  current <~ augment (fst responses) info ;;
                  Normal
                    (json_response 200
                       (Obj [("current", current); ("forecast", snd responses);
                             ("searchedLocation", searched)]),
                     sql_insert E db searched (or_else (lookup "dateFrom" body) Null)
                       (or_else (lookup "dateTo" body) Null)
                       (JSON_image
                          (Obj [("current", current); ("forecast", snd responses);
                                ("searchedLocation", searched)]))))).
  { rewrite post_api_weather_try_unfold. fold location lat lon.
    rewrite Hpresence, Hdate.
    rewrite (@fetch_and_store_unfold E db _ _ _ (lookup "type" body)
               (lookup "dateFrom" body) (lookup "dateTo" body) _ _ Hen).
    now rewrite Hurl. }
  assert (Hout : out = match snd (post_api_weather_try E db body) with
                       | Normal o => o
                       | Throw err => (weather_error_response err, db)
                       end) by apply post_api_weather_answer.
  rewrite Htry in Hout. cbn [snd] in Hout.
  split; [|split; [|split]].
  - intros r c H H0. rewrite Hout, H, H0.
    split; [apply weather_error_response_answers | reflexivity].
  - intros r c H H0. rewrite Hout, H, H0.
    split; [apply weather_error_response_answers | reflexivity].
  - intros ra rb H H0. rewrite Hout, H, H0.
    split; [apply weather_error_response_answers | reflexivity].
  - intros calls res db' Hnormal. rewrite Htry in Hnormal.
    destruct (axios_get E (current u)) as [c|r];
      destruct (axios_get E (forecast u)) as [f|r']; try discriminate Hnormal.
    eauto.
Qed.

(** The provider refuses the key on the forecast endpoint: the request
    fails with the provider's 401 and its message. *)
Lemma C4_upstream_failure_witness :
  let out := post_api_weather Sample.env_unauthorized Sample.empty_db
               [("location", Str "Paris")] in
  fst (snd out) = json_response 401 (error_body (Str "Invalid API key.")) /\
  snd (snd out) = Sample.empty_db.
Proof.
  pose proof (@C4_upstream_failure Sample.env_unauthorized Sample.empty_db
                [("location", Str "Paris")]
                {| current := "https://api.openweathermap.org/data/2.5/weather?q=Paris&appid=KEY&units=metric";
                   forecast := "https://api.openweathermap.org/data/2.5/forecast?q=Paris&appid=KEY&units=metric" |}
                eq_refl eq_refl eq_refl) as (_ & Hforecast & _).
  destruct (Hforecast (Some Sample.unauthorized) Sample.paris_current eq_refl eq_refl)
    as ((Hmirror & _) & Hdb).
  split; [|exact Hdb].
  exact (Hmirror Sample.unauthorized eq_refl eq_refl).
Defined.

(** ** The returned record *)

Lemma searchedLocation_spec (location lat lon searched : value) :
  searchedLocation location lat lon = Normal searched ->
  searched_for location lat lon searched.
Proof.
  unfold searchedLocation, searched_for.
  destruct (truthy location).
  - intros [= <-]. split; [reflexivity | discriminate].
  - destruct (ToString lat) as [a|]; [|discriminate].
    destruct (ToString lon) as [b|]; [|discriminate].
    intros [= <-]. split; [discriminate|]. intros _. now exists a, b.
Qed.

(** What a successful [POST /api/weather] returns (the [try] block
    completes with the 200 answer): both weather requests were resolved,
    and the record is [{current, forecast, searchedLocation}] where
    [forecast] is the forecast payload, [searchedLocation] is the supplied
    location or else the text ["lat,lon"], and [current] is the
    current-conditions payload, extended when it is an object as
    [augmented] says.  A payload that is not an object is returned as it
    is. *)
Lemma post_returned_record (E : Env) (db : database) (body : object)
    (calls : list event) (res : response) (db' : database) :
  let location := lookup "location" body in
  let lat := lookup "lat" body in
  let lon := lookup "lon" body in
  post_api_weather_try E db body = (calls, Normal (res, db')) ->
  statusCode res = 200%Z ->
  exists u cur fc info searched current',
    buildWeatherUrl E location lat lon (lookup "type" body) = Normal u /\
    axios_get E (current u) = Resolved cur /\
    axios_get E (forecast u) = Resolved fc /\
    snd (enrich E location lat lon) = Normal info /\
    searched_for location lat lon searched /\
    sent res = Obj [("current", current'); ("forecast", fc);
                    ("searchedLocation", searched)] /\
    match cur with
    | Obj o => exists o', current' = Obj o' /\ augmented o info o'
    | _ => current' = cur
    end.
Proof.
  intros location lat lon Htry Hstatus.
  rewrite post_api_weather_try_unfold in Htry. fold location lat lon in Htry.
  unfold presence_check in Htry.
  destruct (negb (truthy location) && (is_undefined lat || is_undefined lon)).
  { injection Htry as _ <- _. discriminate Hstatus. }
  destruct (date_check E _ _) as [[rejected|]|err] eqn:Hdate; [| |discriminate Htry].
  { destruct (date_check_response _ _ _ Hdate) as (m & _ & ->).
    injection Htry as _ <- _. discriminate Hstatus. }
  destruct (enrich_returns E location lat lon) as (l & info & Hen).
  rewrite (@fetch_and_store_unfold E db _ _ _ (lookup "type" body)
             (lookup "dateFrom" body) (lookup "dateTo" body) _ _ Hen) in Htry.
  destruct (buildWeatherUrl E location lat lon (lookup "type" body)) as [u|]
    eqn:Hurl; [|discriminate Htry].
  destruct (axios_get E (current u)) as [cur|] eqn:Hcur;
    destruct (axios_get E (forecast u)) as [fc|] eqn:Hfc;
    cbn [Promise_all cbind fst snd] in Htry; try discriminate Htry.
  destruct (searchedLocation location lat lon) as [searched|] eqn:Hsearched;
    cbn [cbind] in Htry; [|discriminate Htry].
  destruct (augment cur info) as [current'|] eqn:Haug;
    cbn [cbind] in Htry; [|discriminate Htry].
  injection Htry as _ <- _.
  exists u, cur, fc, info, searched, current'.
  rewrite Hen.
  do 4 (split; [first [reflexivity | assumption]|]).
  split; [exact (searchedLocation_spec _ _ _ Hsearched)|].
  split; [reflexivity|].
  destruct cur as [| |b|x|s|elements|o].
  - discriminate Haug.
  - discriminate Haug.
  - rewrite augment_other in Haug; congruence.
  - rewrite augment_other in Haug; congruence.
  - rewrite augment_other in Haug; congruence.
  - rewrite augment_other in Haug; congruence.
  - destruct (augment_object o info) as (o' & Ho' & Hspec).
    exists o'. split; [congruence | exact Hspec].
Qed.

(** C5 (the code departs from the specification).  [timezoneOffset] is not
    copied from [current.timezone] whenever that is present: the handler
    tests [if (weatherData.current.timezone)], and the offset of a place
    on UTC is 0, which is falsy.  Whatever else the current conditions
    hold and whatever enrichment returned, an object whose [timezone] is 0
    comes out of the extension with that [timezone] and with the
    [timezoneOffset] it had before, that is none for a provider payload;
    an object whose [timezone] is 3600 gets [timezoneOffset = 3600].  In
    the sample world with the provider reporting [timezone: 0], the
    request for Paris is answered 200 with a [current] that has
    [timezone = 0] and no [timezoneOffset]; the same request with
    [timezone: 3600] has [timezoneOffset = 3600]. *)
Theorem C5_utc_offset_is_not_copied :
  (forall (o : object) (info : value) (sign : bool),
      exists o',
        augment (Obj (assign "timezone" (Num (Zero sign)) o)) info = Normal (Obj o') /\
        lookup "timezone" o' = Num (Zero sign) /\
        lookup "timezoneOffset" o' = lookup "timezoneOffset" o) /\
  (forall (o : object) (info : value),
      exists o',
        augment (Obj (assign "timezone" (Num (of_Z 3600)) o)) info = Normal (Obj o') /\
        lookup "timezoneOffset" o' = Num (of_Z 3600)) /\
  (let out := post_api_weather Sample.env_utc Sample.empty_db
                [("location", Str "Paris")] in
   statusCode (fst (snd out)) = 200%Z /\
   exists o, get (sent (fst (snd out))) "current" = Obj o /\
             has_own "timezone" o = true /\
             lookup "timezone" o = Num (Zero false) /\
             has_own "timezoneOffset" o = false) /\
  (let out := post_api_weather Sample.env Sample.empty_db
                [("location", Str "Paris")] in
   statusCode (fst (snd out)) = 200%Z /\
   get (get (sent (fst (snd out))) "current") "timezoneOffset" = Num (of_Z 3600)).
Proof.
  split; [|split; [|split]].
  - intros o info sign.
    destruct (augment_object (assign "timezone" (Num (Zero sign)) o) info)
      as (o' & Haug & _ & _ & _ & Hoffset & Hother).
    exists o'. split; [exact Haug|]. split.
    + rewrite Hother; [now rewrite lookup_assign|].
      cbv. intros [H|[H|[H|[H|[]]]]]; discriminate H.
    + rewrite Hoffset, !lookup_assign. reflexivity.
  - intros o info.
    destruct (augment_object (assign "timezone" (Num (of_Z 3600)) o) info)
      as (o' & Haug & _ & _ & _ & Hoffset & _).
    exists o'. split; [exact Haug|].
    rewrite Hoffset, !lookup_assign. reflexivity.
  - vm_compute. split; [reflexivity|]. eexists. repeat split.
  - vm_compute. split; reflexivity.
Qed.

(** ** Best-effort enrichment *)

(** Both resolvers always return, never throw.  They return [null]
    whenever anything in their [try] block throws; in particular when the
    request is rejected (network error, status outside 2xx: [Rejected r]
    for any [r]) and when reading the payload throws (a list whose first
    element is [null]); and they return [null] when the provider answers
    with zero results.  A request whose enrichment returned [null] is not
    failed by it: if it passed the checks and both weather requests
    succeed with an object of current conditions, the answer is 200, and
    the returned [current] has the [enhancedLocation] and [displayName] of
    the provider's payload, that is none when the payload has none. *)
Lemma enrichment_failure_is_swallowed (E : Env) :
  (forall location, exists calls v,
      getCoordinatesFromLocation E location = (calls, Normal v)) /\
  (forall lat lon, exists calls v,
      getLocationFromCoordinates E lat lon = (calls, Normal v)) /\
  (forall location calls err,
      getCoordinatesFromLocation_try E location = (calls, Throw err) ->
      snd (getCoordinatesFromLocation E location) = Normal Null) /\
  (forall lat lon calls err,
      getLocationFromCoordinates_try E lat lon = (calls, Throw err) ->
      snd (getLocationFromCoordinates E lat lon) = Normal Null) /\
  (forall location q answer,
      encodeURIComponent location = Normal q ->
      axios_get E (direct_url E q) = answer ->
      (exists r, answer = Rejected r) \/ answer = Resolved (Arr []) \/
      (exists rest, answer = Resolved (Arr (Null :: rest))) ->
      snd (getCoordinatesFromLocation E location) = Normal Null) /\
  (forall lat lon a b answer,
      ToString lat = Normal a -> ToString lon = Normal b ->
      axios_get E (reverse_url E a b) = answer ->
      (exists r, answer = Rejected r) \/ answer = Resolved (Arr []) \/
      (exists rest, answer = Resolved (Arr (Null :: rest))) ->
      snd (getLocationFromCoordinates E lat lon) = Normal Null) /\
  (forall db body u cur fc searched,
      let location := lookup "location" body in
      let lat := lookup "lat" body in
      let lon := lookup "lon" body in
      presence_check location lat lon = None ->
      date_check E (lookup "dateFrom" body) (lookup "dateTo" body) = Normal None ->
      snd (enrich E location lat lon) = Normal Null ->
      buildWeatherUrl E location lat lon (lookup "type" body) = Normal u ->
      axios_get E (current u) = Resolved (Obj cur) ->
      axios_get E (forecast u) = Resolved fc ->
      searchedLocation location lat lon = Normal searched ->
      let res := fst (snd (post_api_weather E db body)) in
      statusCode res = 200%Z /\
      exists o',
        sent res = Obj [("current", Obj o'); ("forecast", fc);
                        ("searchedLocation", searched)] /\
        lookup "enhancedLocation" o' = lookup "enhancedLocation" cur /\
        lookup "displayName" o' = lookup "displayName" cur).
Proof.
  split; [|split; [|split; [|split; [|split; [|split]]]]].
  - intros location.
    destruct (getCoordinatesFromLocation_returns E location) as (l & v & ->); eauto.
  - intros lat lon.
    destruct (getLocationFromCoordinates_returns E lat lon) as (l & v & ->); eauto.
  - intros location calls err Htry.
    now rewrite getCoordinatesFromLocation_unfold, Htry.
  - intros lat lon calls err Htry.
    now rewrite getLocationFromCoordinates_unfold, Htry.
  - intros location q answer Hq Hget Hanswer.
    rewrite getCoordinatesFromLocation_unfold.
    rewrite (getCoordinatesFromLocation_try_request E _ Hq), Hget.
    destruct Hanswer as [(r & ->) | [-> | (rest & ->)]]; reflexivity.
  - intros lat lon a b answer Ha Hb Hget Hanswer.
    rewrite getLocationFromCoordinates_unfold.
    rewrite (getLocationFromCoordinates_try_request E _ _ Ha Hb), Hget.
    destruct Hanswer as [(r & ->) | [-> | (rest & ->)]]; reflexivity.
  - intros db body u cur fc searched location lat lon
      Hpresence Hdate Hnull Hurl Hcur Hfc Hsearched res.
    destruct (enrich E location lat lon) as [l info] eqn:Hen.
    cbn [snd] in Hnull. subst info.
    assert (Hres : res = fst (match snd (post_api_weather_try E db body) with
                              | Normal o => o
                              | Throw err => (weather_error_response err, db)
                              end))
      by (unfold res; now rewrite post_api_weather_answer).
    rewrite post_api_weather_try_unfold in Hres. fold location lat lon in Hres.
    rewrite Hpresence, Hdate in Hres.
    rewrite (@fetch_and_store_unfold E db _ _ _ (lookup "type" body)
               (lookup "dateFrom" body) (lookup "dateTo" body) _ _ Hen) in Hres.
    rewrite Hurl, Hcur, Hfc, Hsearched in Hres.
    cbn [snd fst Promise_all cbind] in Hres.
    destruct (augment_object cur Null) as (o' & Haug & _ & Hinfo & Hname & _).
    rewrite Haug in Hres. cbn [cbind fst] in Hres.
    rewrite Hres. split; [reflexivity|].
    exists o'. split; [reflexivity|]. split; [exact Hinfo | exact Hname].
Qed.

(** C7 (the code departs from the specification).  A malformed payload does
    not always make a resolver return [null].  The resolvers test only
    [response.data && response.data.length > 0]; a payload that is a
    non-empty string (what axios hands over for a body that is not JSON)
    passes that test, reading it throws nothing, and its first character
    has no [name], [state] or [country].  So, for every world, the forward
    resolver returns a record of undefined fields named "undefined,
    undefined", and the reverse resolver the same record with the
    coordinates of the request.  In the sample world with a proxy that
    answers the geocoding request with a page of HTML, the request for
    Paris is answered 200 with that record as [enhancedLocation] and with
    [displayName = "undefined, undefined"]; with a provider that knows no
    such place the same request is answered with no [enhancedLocation]. *)
Theorem C7_page_is_read_as_a_place :
  (forall (E : Env) (location : value) (q page : string),
      encodeURIComponent location = Normal q ->
      axios_get E (direct_url E q) = Resolved (Str page) -> page <> "" ->
      snd (getCoordinatesFromLocation E location) =
      Normal (Obj [("lat", Undefined); ("lon", Undefined); ("name", Undefined);
                   ("country", Undefined); ("state", Null);
                   ("fullName", Str "undefined, undefined")])) /\
  (forall (E : Env) (lat lon : value) (a b page : string),
      ToString lat = Normal a -> ToString lon = Normal b ->
      axios_get E (reverse_url E a b) = Resolved (Str page) -> page <> "" ->
      snd (getLocationFromCoordinates E lat lon) =
      Normal (Obj [("lat", Num (parseFloat E a)); ("lon", Num (parseFloat E b));
                   ("name", Undefined); ("country", Undefined); ("state", Null);
                   ("fullName", Str "undefined, undefined")])) /\
  axios_get Sample.env_captive_portal
    "https://api.openweathermap.org/geo/1.0/direct?q=Paris&limit=1&appid=KEY"
  = Resolved (Str "<html></html>") /\
  snd (getCoordinatesFromLocation Sample.env_captive_portal (Str "Paris"))
  = Normal (Obj [("lat", Undefined); ("lon", Undefined); ("name", Undefined);
                 ("country", Undefined); ("state", Null);
                 ("fullName", Str "undefined, undefined")]) /\
  (let res := fst (snd (post_api_weather Sample.env_captive_portal Sample.empty_db
                          [("location", Str "Paris")])) in
   statusCode res = 200%Z /\
   get (get (sent res) "current") "enhancedLocation" <> Undefined /\
   get (get (sent res) "current") "displayName" = Str "undefined, undefined") /\
  (let res := fst (snd (post_api_weather Sample.env_unknown_place Sample.empty_db
                          [("location", Str "Paris")])) in
   statusCode res = 200%Z /\
   get (get (sent res) "current") "enhancedLocation" = Undefined /\
   get (get (sent res) "current") "displayName" = Undefined).
Proof.
  split; [|split; [|split; [|split; [|split]]]].
  - intros E location q page Hq Hget Hpage.
    rewrite getCoordinatesFromLocation_unfold.
    rewrite (getCoordinatesFromLocation_try_request E _ Hq), Hget.
    destruct page as [|c page]; [congruence | reflexivity].
  - intros E lat lon a b page Ha Hb Hget Hpage.
    rewrite getLocationFromCoordinates_unfold.
    rewrite (getLocationFromCoordinates_try_request E _ _ Ha Hb), Hget.
    destruct page as [|c page]; [congruence | reflexivity].
  - reflexivity.
  - vm_compute. reflexivity.
  - vm_compute. repeat split. discriminate.
  - vm_compute. repeat split.
Qed.

(** ** [PUT /api/queries/:id] *)




(** ** [GET /api/export/csv] *)

Lemma append_assoc (a b c : string) : (a ++ b) ++ c = a ++ (b ++ c).
Proof.
  induction a as [|x a IH]; [reflexivity|].
  cbn [append]. now rewrite IH.
Qed.

Lemma commas_app (a b : string) : commas (a ++ b) = commas a + commas b.
Proof.
  induction a as [|c a IH]; [reflexivity|].
  cbn [append commas]. rewrite IH. lia.
Qed.

Lemma columns_length (s : string) : List.length (columns s) = S (commas s).
Proof.
  induction s as [|c s IH]; [reflexivity|].
  cbn [columns commas]. destruct (Ascii.eqb c ","); cbn [List.length].
  - now rewrite IH.
  - destruct (columns s); cbn [List.length] in *; lia.
Qed.

Lemma csv_line_joins (r : row) :
  csv_line r = (fields <~ csv_values r ;; Normal (String.concat "," fields)).
Proof.
  unfold csv_line, csv_values.
  repeat match goal with
         | |- context [cbind ?c _] =>
             destruct c; cbn [cbind]; try reflexivity
         end.
  cbn [String.concat]. now rewrite append_assoc.
Qed.

Lemma csv_values_length (r : row) (fields : list string) :
  csv_values r = Normal fields ->
  exists f0 f1 f2 f3 f4 f5 f6, fields = [f0; f1; f2; f3; f4; f5; f6] /\
    ToString (location r) = Normal f1.
Proof.
  unfold csv_values.
  destruct (ToString (location r)) as [f1|]; [|discriminate]. cbn [cbind].
  repeat match goal with
         | |- context [cbind ?c _] =>
             destruct c; cbn [cbind]; try discriminate
         end.
  intros [= <-]. repeat eexists.
Qed.

Lemma csv_lines_each (rows : list row) (lines : list string) :
  csv_lines rows = Normal lines ->
  Forall2 (fun r line => csv_line r = Normal line) rows lines.
Proof.
  revert lines. induction rows as [|r rows IH]; intros lines; cbn [csv_lines].
  - intros [= <-]. constructor.
  - destruct (csv_line r) as [line|] eqn:Hline; [|discriminate].
    destruct (csv_lines rows) as [rest|]; [|discriminate]. cbn [cbind].
    intros [= <-]. constructor; [exact Hline | now apply IH].
Qed.

Lemma csv_lines_all (rows : list row) (lines : list string) :
  Forall2 (fun r line => csv_line r = Normal line) rows lines ->
  csv_lines rows = Normal lines.
Proof.
  induction 1 as [|r line rows lines Hline _ IH]; cbn [csv_lines]; [reflexivity|].
  now rewrite Hline, IH.
Qed.

(** C10.  The line of a row is the seven interpolated texts joined with
    commas, as they are: no text is quoted or escaped.  Cut at its commas,
    the line therefore has seven fields plus one for every comma inside a
    text, while the header has seven; so a row whose location (or any
    other text, such as the weather condition) contains a comma gets more
    fields than the header has columns.  The export emits these lines:
    when every row yields its line, the answer is 200 with the two CSV
    headers and, as its text, the header line followed by the lines of the
    rows, one per row and in their order; and a file is sent in no other
    case. *)
Theorem C10_csv_line_is_unquoted (r : row) :
  csv_line r = (fields <~ csv_values r ;; Normal (String.concat "," fields)) /\
  List.length (columns csv_header) = 7 /\
  (forall fields line,
      csv_values r = Normal fields -> csv_line r = Normal line ->
      List.length fields = 7 /\
      List.length (columns line) = 7 + list_sum (map commas fields) /\
      (forall field, In field fields -> 0 < commas field ->
                     List.length (columns csv_header) < List.length (columns line))) /\
  (forall s line,
      location r = Str s -> 0 < commas s -> csv_line r = Normal line ->
      List.length (columns csv_header) < List.length (columns line)) /\
  (forall rows lines,
      Forall2 (fun row line => csv_line row = Normal line) rows lines ->
      get_api_export_csv false rows =
      Normal {| statusCode := 200;
                headers := [("Content-Type", "text/csv");
                            ("Content-Disposition",
                             "attachment; filename=weather_queries.csv")];
                sent := Str (String.concat newline (csv_header :: lines)) |}) /\
  (forall rows res,
      get_api_export_csv false rows = Normal res ->
      exists lines,
        sent res = Str (String.concat newline (csv_header :: lines)) /\
        Forall2 (fun row line => csv_line row = Normal line) rows lines).
Proof.
  assert (Hcount : forall fields line,
             csv_values r = Normal fields -> csv_line r = Normal line ->
             List.length fields = 7 /\
             List.length (columns line) = 7 + list_sum (map commas fields)).
  { intros fields line Hvalues Hline.
    rewrite csv_line_joins, Hvalues in Hline. cbn [cbind] in Hline.
    injection Hline as <-.
    destruct (csv_values_length _ Hvalues) as (f0 & f1 & f2 & f3 & f4 & f5 & f6 & -> & _).
    split; [reflexivity|].
    rewrite columns_length. cbn [String.concat map list_sum fold_right].
    rewrite !commas_app. change (commas ",") with 1. lia. }
  assert (Hin : forall fields field,
             In field fields -> commas field <= list_sum (map commas fields)).
  { induction fields as [|f fields IH]; intros field [];
      change (list_sum (map commas (f :: fields)))
        with (commas f + list_sum (map commas fields)).
    - subst f. lia.
    - specialize (IH _ H). lia. }
  split; [apply csv_line_joins|]. split; [reflexivity|]. split; [|split; [|split]].
  - intros fields line Hvalues Hline.
    destruct (Hcount _ _ Hvalues Hline) as [Hlen Hcols].
    split; [exact Hlen|]. split; [exact Hcols|].
    intros field Hfield Hcomma. specialize (Hin _ _ Hfield).
    rewrite Hcols. change (List.length (columns csv_header)) with 7. lia.
  - intros s line Hloc Hcomma Hline.
    destruct (csv_values r) as [fields|] eqn:Hvalues.
    + destruct (Hcount _ _ eq_refl Hline) as [_ Hcols].
      destruct (csv_values_length _ Hvalues)
        as (f0 & f1 & f2 & f3 & f4 & f5 & f6 & -> & Hf1).
      rewrite Hloc in Hf1. injection Hf1 as <-.
      rewrite Hcols. change (List.length (columns csv_header)) with 7.
      change (list_sum (map commas [f0; s; f2; f3; f4; f5; f6]))
        with (commas f0 + (commas s + list_sum (map commas [f2; f3; f4; f5; f6]))).
      lia.
    + rewrite csv_line_joins, Hvalues in Hline. discriminate Hline.
  - intros rows lines Hlines. unfold get_api_export_csv.
    now rewrite (csv_lines_all Hlines).
  - intros rows res. unfold get_api_export_csv.
    destruct (csv_lines rows) as [lines|] eqn:Hlines; [|discriminate].
    intros [= <-]. exists lines. split; [reflexivity|].
    now apply csv_lines_each.
Qed.

(** The export of a table of two rows, the one stored for the query
    [{lat: 48.85, lon: 2.35}] and the same row again: the file has the
    header and two lines, and each line has eight fields for the seven
    columns of the header. *)
Lemma C10_csv_line_is_unquoted_witness :
  let line := "1,48.85,2.35,,,12.34°C,Clouds,2026-01-01 00:00:00" in
  csv_line Sample.stored_row = Normal line /\
  get_api_export_csv false [Sample.stored_row; Sample.stored_row] =
  Normal {| statusCode := 200;
            headers := [("Content-Type", "text/csv");
                        ("Content-Disposition",
                         "attachment; filename=weather_queries.csv")];
            sent := Str (String.concat newline [csv_header; line; line]) |} /\
  List.length (columns csv_header) = 7 /\
  List.length (columns line) = 8.
Proof.
  intros line.
  destruct (C10_csv_line_is_unquoted Sample.stored_row)
    as (_ & Hheader & Hfields & Hlocation & Hsent & _).
  assert (Hline : csv_line Sample.stored_row = Normal line) by reflexivity.
  split; [exact Hline|]. split; [|split; [exact Hheader|]].
  - apply (Hsent [Sample.stored_row; Sample.stored_row] [line; line]).
    repeat constructor.
  - destruct (Hfields _ line eq_refl Hline) as (_ & Hcols & _).
    rewrite Hcols. reflexivity.
Defined.

(* ================================================================== *)
(** * Further properties of [server.js] *)

Unset Implicit Arguments.

(** ** Date ranges *)

(** X1.  When both bounds of a range are supplied and converted to time
    values, [validateDateRange] accepts the range exactly when both are
    valid dates with [from <= to <= now] (the bounds included); a range
    it rejects carries one of its four messages. *)
Theorem validateDateRange_accepts_iff (E : Env) (dateFrom dateTo : value)
    (from to : option Z) :
  truthy dateFrom = true -> truthy dateTo = true ->
  new_Date E dateFrom = Normal from -> new_Date E dateTo = Normal to ->
  exists v,
    validateDateRange E dateFrom dateTo = Normal v /\
    (valid v = true <->
     exists f t, from = Some f /\ to = Some t /\ (f <= t)%Z /\ (t <= now E)%Z) /\
    (valid v = false -> exists m, error v = Str m /\ In m date_messages).
Proof.
  intros Hf Ht Hfrom Hto. unfold validateDateRange.
  rewrite Hf, Ht, Hfrom, Hto. cbn [negb orb cbind].
  destruct from as [f|], to as [t|]; cbn [isNaN orb date_gt].
  - destruct (Z.ltb_spec t f); [|destruct (Z.ltb_spec (now E) t)];
      eexists; (split; [reflexivity|]); cbn [valid error]; split.
    + split; [discriminate|]. intros (f' & t' & [= <-] & [= <-] & H1 & H2). lia.
    + intros _. eexists; split; [reflexivity|]. simpl; auto.
    + split; [discriminate|]. intros (f' & t' & [= <-] & [= <-] & H1 & H2). lia.
    + intros _. eexists; split; [reflexivity|]. simpl; auto.
    + split; [|reflexivity]. intros _. exists f, t. repeat split; lia.
    + discriminate.
  - eexists; (split; [reflexivity|]); cbn [valid error]; split.
    + split; [discriminate|]. intros (f' & t' & _ & [=] & _).
    + intros _. eexists; split; [reflexivity|]. simpl; auto.
  - eexists; (split; [reflexivity|]); cbn [valid error]; split.
    + split; [discriminate|]. intros (f' & t' & [=] & _).
    + intros _. eexists; split; [reflexivity|]. simpl; auto.
  - eexists; (split; [reflexivity|]); cbn [valid error]; split.
    + split; [discriminate|]. intros (f' & t' & [=] & _).
    + intros _. eexists; split; [reflexivity|]. simpl; auto.
Qed.

(** A range of one day, and a range that ends at the very instant of the
    call. *)
Lemma validateDateRange_accepts_iff_witness :
  (exists v, validateDateRange Sample.env (Str "2024-01-01") (Str "2024-01-31")
             = Normal v /\ valid v = true) /\
  (exists v, validateDateRange Sample.env (Str "2026-01-01") (Str "2026-01-01")
             = Normal v /\ valid v = true).
Proof.
  split.
  - destruct (validateDateRange_accepts_iff Sample.env (Str "2024-01-01")
                (Str "2024-01-31") _ _ eq_refl eq_refl eq_refl eq_refl)
      as (v & Hv & Hvalid & _).
    exists v. split; [exact Hv|]. apply Hvalid.
    exists 1704067200000%Z, 1706659200000%Z.
    repeat split; [discriminate | discriminate].
  - destruct (validateDateRange_accepts_iff Sample.env (Str "2026-01-01")
                (Str "2026-01-01") _ _ eq_refl eq_refl eq_refl eq_refl)
      as (v & Hv & Hvalid & _).
    exists v. split; [exact Hv|]. apply Hvalid.
    exists 1767225600000%Z, 1767225600000%Z.
    repeat split; [discriminate | discriminate].
Defined.

(** X2.  A date range that the check rejects ends the request at once, in
    [POST /api/weather] and in [PUT /api/queries/:id] alike: the answer is
    the 400 with the message of [validateDateRange], no provider was
    called, and the table is as it was. *)
Theorem rejected_range_stops_the_request (E : Env) (db : database)
    (id_param : string) (body : object) (res : response) :
  date_check E (lookup "dateFrom" body) (lookup "dateTo" body) = Normal (Some res) ->
  (exists m, In m date_messages /\ res = rejection m) /\
  (presence_check (lookup "location" body) (lookup "lat" body) (lookup "lon" body) = None ->
   post_api_weather E db body = ([], (res, db))) /\
  (truthy (lookup "location" body) = true ->
   put_api_queries_id E db id_param body = ([], (res, db))).
Proof.
  intros Hdate. split; [exact (date_check_response _ _ _ Hdate)|]. split.
  - intros Hpresence. unfold post_api_weather.
    now rewrite post_api_weather_try_unfold, Hpresence, Hdate.
  - intros Hloc. unfold put_api_queries_id, put_api_queries_id_try.
    now rewrite Hloc, Hdate, bind_lift_normal.
Qed.

(** A range that ends in the future, sent to both routes. *)
Lemma rejected_range_stops_the_request_witness :
  let body := [("location", Str "Paris"); ("dateFrom", Str "2024-01-01");
               ("dateTo", Str "2031-01-01")] in
  post_api_weather Sample.env Sample.one_row_db body
  = ([], (rejection "End date cannot be in the future", Sample.one_row_db)) /\
  put_api_queries_id Sample.env Sample.one_row_db "1" body
  = ([], (rejection "End date cannot be in the future", Sample.one_row_db)).
Proof.
  destruct (rejected_range_stops_the_request Sample.env Sample.one_row_db "1"
              [("location", Str "Paris"); ("dateFrom", Str "2024-01-01");
               ("dateTo", Str "2031-01-01")]
              (rejection "End date cannot be in the future") eq_refl)
    as (_ & Hpost & Hput).
  split; [exact (Hpost eq_refl) | exact (Hput eq_refl)].
Defined.

(** ** What [POST /api/weather] does to the table *)

(** A completed [try] block either returned a 400 early, or built the
    record, handed it to the [INSERT] and answered 200 with it. *)
Lemma post_api_weather_try_outcome (E : Env) (db : database) (body : object)
    (calls : list event) (res : response) (db' : database) :
  post_api_weather_try E db body = (calls, Normal (res, db')) ->
  (statusCode res = 400%Z /\ db' = db /\ calls = []) \/
  (exists record searched,
      res = json_response 200 record /\
      get record "searchedLocation" = searched /\
      db' = sql_insert E db searched (or_else (lookup "dateFrom" body) Null)
              (or_else (lookup "dateTo" body) Null) (JSON_image record)).
Proof.
  intros Htry. rewrite post_api_weather_try_unfold in Htry.
  unfold presence_check in Htry.
  destruct (negb (truthy (lookup "location" body)) && _).
  { injection Htry as <- <- <-. left. now repeat split. }
  destruct (date_check E _ _) as [[rejected|]|err] eqn:Hdate; [| |discriminate Htry].
  { destruct (date_check_response _ _ _ Hdate) as (m & _ & ->).
    injection Htry as <- <- <-. left. now repeat split. }
  destruct (enrich_returns E (lookup "location" body) (lookup "lat" body)
              (lookup "lon" body)) as (l & info & Hen).
  rewrite (@fetch_and_store_unfold E db _ _ _ (lookup "type" body)
             (lookup "dateFrom" body) (lookup "dateTo" body) _ _ Hen) in Htry.
  destruct (buildWeatherUrl E _ _ _ _) as [u|]; [|discriminate Htry].
  destruct (Promise_all E _ _) as [responses|]; cbn [cbind] in Htry;
    [|discriminate Htry].
  destruct (searchedLocation _ _ _) as [searched|]; cbn [cbind] in Htry;
    [|discriminate Htry].
  destruct (augment _ _) as [current'|]; cbn [cbind] in Htry; [|discriminate Htry].
  injection Htry as _ <- <-. right.
  eexists. exists searched. repeat split.
Qed.

Lemma post_api_weather_table (E : Env) (db : database) (body : object) :
  snd (snd (post_api_weather E db body)) = db \/
  exists location date_from date_to weather_data,
    snd (snd (post_api_weather E db body)) =
    sql_insert E db location date_from date_to weather_data.
Proof.
  rewrite post_api_weather_answer.
  destruct (post_api_weather_try E db body) as [calls [[res db']|err]] eqn:Htry;
    cbn [snd]; [|now left].
  destruct (post_api_weather_try_outcome _ _ _ _ _ _ Htry)
    as [(_ & -> & _) | (record & searched & _ & _ & ->)]; [now left|].
  right. eauto.
Qed.

Lemma id_below_next (db : database) (r : row) :
  In r (weather_queries db) -> (id r < next_id db)%Z.
Proof.
  unfold next_id. destruct db as [rows seq]. cbn [weather_queries sqlite_sequence].
  induction rows as [|r0 rows IH]; intros []; cbn [map fold_right].
  - subst r0. lia.
  - specialize (IH H). lia.
Qed.

(** X3.  Whatever the request and whatever the world, [POST /api/weather]
    leaves the table as it was or appends exactly one row to it: the rows
    that were there are untouched, and the new row gets an [id] above all
    of theirs and above every [id] given out before, and the timestamp of
    the insertion.  So a table whose ids were distinct keeps distinct
    ids. *)
Theorem post_appends_at_most_one_row (E : Env) (db : database) (body : object) :
  let db' := snd (snd (post_api_weather E db body)) in
  (db' = db \/
   exists r,
     weather_queries db' = (weather_queries db ++ [r])%list /\
     (forall r0, In r0 (weather_queries db) -> (id r0 < id r)%Z) /\
     (sqlite_sequence db < id r)%Z /\
     sqlite_sequence db' = id r /\
     created_at r = Str (CURRENT_TIMESTAMP E)) /\
  (NoDup (map id (weather_queries db)) -> NoDup (map id (weather_queries db'))).
Proof.
  intros db'.
  assert (Hshape : db' = db \/
            exists r,
              weather_queries db' = (weather_queries db ++ [r])%list /\
              id r = next_id db /\ sqlite_sequence db' = id r /\
              created_at r = Str (CURRENT_TIMESTAMP E)).
  { destruct (post_api_weather_table E db body)
      as [H | (location & date_from & date_to & weather_data & H)];
      [now left|].
    unfold db'. rewrite H. unfold sql_insert.
    destruct (sqlite_fails E); [now left|]. right.
    eexists. cbn [weather_queries sqlite_sequence id created_at]. repeat split. }
  split.
  - destruct Hshape as [H | (r & Hrows & Hid & Hseq & Hcreated)]; [now left|].
    right. exists r. repeat split; try assumption.
    + intros r0 Hr0. rewrite Hid. now apply id_below_next.
    + rewrite Hid. unfold next_id. lia.
  - intros Hnodup.
    destruct Hshape as [-> | (r & Hrows & Hid & _)]; [exact Hnodup|].
    rewrite Hrows, map_app. cbn [map].
    apply NoDup_app; [exact Hnodup | repeat constructor; intros [] |].
    intros i Hi [<- | []]. apply in_map_iff in Hi as (r0 & Heq & Hr0).
    apply id_below_next in Hr0. lia.
Qed.

(** A second query on a table that holds one. *)
Lemma post_appends_at_most_one_row_witness :
  NoDup (map id (weather_queries
                   (snd (snd (post_api_weather Sample.env Sample.one_row_db
                                [("location", Str "Paris")]))))).
Proof.
  apply (proj2 (post_appends_at_most_one_row Sample.env Sample.one_row_db
                  [("location", Str "Paris")])).
  repeat constructor. intros [].
Defined.

(** X4.  The row a successful [POST /api/weather] stores is the record it
    answers with: for a body of the documented types, its [location] is
    the record's [searchedLocation], its [weather_data] the JSON of the
    record, its dates the supplied ones or [NULL].  The insertion is not
    awaited: when the driver fails, the answer is the same 200 and nothing
    is stored. *)
Theorem post_stores_what_it_answers (E : Env) (db : database) (body : object)
    (calls : list event) (res : response) (db' : database) :
  binds_text body ->
  post_api_weather_try E db body = (calls, Normal (res, db')) ->
  statusCode res = 200%Z ->
  (sqlite_fails E = true -> db' = db) /\
  (sqlite_fails E = false ->
   exists r,
     weather_queries db' = (weather_queries db ++ [r])%list /\
     location r = get (sent res) "searchedLocation" /\
     date_from r = or_else (lookup "dateFrom" body) Null /\
     date_to r = or_else (lookup "dateTo" body) Null /\
     weather_data r = JSON_image (sent res)).
Proof.
  intros _ Htry Hstatus.
  destruct (post_api_weather_try_outcome _ _ _ _ _ _ Htry)
    as [(H400 & _) | (record & searched & -> & <- & ->)].
  { rewrite H400 in Hstatus. discriminate Hstatus. }
  unfold sql_insert. split; intros ->; [reflexivity|].
  eexists. cbn [weather_queries location date_from date_to weather_data sent json_response].
  repeat split.
Qed.

(** The same request with a working and with a failing driver. *)
Lemma post_stores_what_it_answers_witness :
  let body := [("lat", Num (Dec false 4885 (-2))); ("lon", Num (Dec false 235 (-2)))] in
  (exists r,
      weather_queries (snd (snd (post_api_weather Sample.env Sample.empty_db body)))
      = [r] /\ location r = Str "48.85,2.35") /\
  statusCode (fst (snd (post_api_weather Sample.env_broken_driver Sample.empty_db body)))
  = 200%Z /\
  snd (snd (post_api_weather Sample.env_broken_driver Sample.empty_db body))
  = Sample.empty_db.
Proof.
  intros body.
  assert (Hbody : binds_text body) by (repeat split; now left).
  split; [|split; [reflexivity|]].
  - set (out := post_api_weather Sample.env Sample.empty_db body).
    assert (Htry : post_api_weather_try Sample.env Sample.empty_db body
                   = (fst out, Normal (fst (snd out), snd (snd out)))) by reflexivity.
    destruct (proj2 (post_stores_what_it_answers _ _ _ _ _ _ Hbody Htry eq_refl) eq_refl)
      as (r & Hrows & Hloc & _).
    exists r. split; [exact Hrows | exact Hloc].
  - set (out := post_api_weather Sample.env_broken_driver Sample.empty_db body).
    assert (Htry : post_api_weather_try Sample.env_broken_driver Sample.empty_db body
                   = (fst out, Normal (fst (snd out), snd (snd out)))) by reflexivity.
    exact (proj1 (post_stores_what_it_answers _ _ _ _ _ _ Hbody Htry eq_refl) eq_refl).
Defined.

(** ** Reading, updating and deleting rows *)

Lemma find_no_hit (E : Env) (id_param : string) (rows : list row) :
  (forall r, In r rows -> hits E id_param r = false) ->
  find (hits E id_param) rows = None.
Proof.
  induction rows as [|r rows IH]; intros Hnone; [reflexivity|].
  cbn [find]. rewrite (Hnone r (or_introl eq_refl)).
  apply IH. intros r' Hr'. apply Hnone. now right.
Qed.

Lemma find_last (E : Env) (id_param : string) (rows : list row) (r : row) :
  (forall r0, In r0 rows -> hits E id_param r0 = false) ->
  hits E id_param r = true ->
  find (hits E id_param) (rows ++ [r]) = Some r.
Proof.
  induction rows as [|r0 rows IH]; intros Hnone Hr; cbn [app find].
  - now rewrite Hr.
  - rewrite (Hnone r0 (or_introl eq_refl)).
    apply IH; [|exact Hr]. intros r' Hr'. apply Hnone. now right.
Qed.

(** X5.  Insert, then look up.  After a successful [POST /api/weather]
    with a body of the documented types, [GET /api/queries/:id] with the
    id of the new row (an id that matches no older row) answers 200 with
    that row: the [searchedLocation] of the record as [location], the
    supplied dates or [null], and as [weather_data] the record that was
    returned, as JSON gives it back. *)
Theorem post_then_get (E : Env) (db : database) (body : object)
    (calls : list event) (res : response) (db' : database) (id_param : string) :
  binds_text body ->
  post_api_weather_try E db body = (calls, Normal (res, db')) ->
  statusCode res = 200%Z ->
  sqlite_fails E = false ->
  sqlite_id_equals E (next_id db) id_param = true ->
  (forall r0, In r0 (weather_queries db) -> sqlite_id_equals E (id r0) id_param = false) ->
  get_api_queries_id E db' id_param =
  json_response 200
    (Obj [("id", Num (of_Z (next_id db)));
          ("location", get (sent res) "searchedLocation");
          ("date_from", or_else (lookup "dateFrom" body) Null);
          ("date_to", or_else (lookup "dateTo" body) Null);
          ("weather_data", JSON_image (sent res));
          ("created_at", Str (CURRENT_TIMESTAMP E))]).
Proof.
  intros _ Htry Hstatus Hfails Hnew Hold.
  destruct (post_api_weather_try_outcome _ _ _ _ _ _ Htry)
    as [(H400 & _) | (record & searched & -> & <- & ->)].
  { rewrite H400 in Hstatus. discriminate Hstatus. }
  unfold get_api_queries_id, sql_get, sql_insert. rewrite Hfails.
  cbn [weather_queries].
  change (fun r => sqlite_id_equals E (id r) id_param) with (hits E id_param).
  rewrite find_last; [reflexivity | exact Hold | exact Hnew].
Qed.

(** The first query stored in the sample world, read back as query 1. *)
Lemma post_then_get_witness :
  let body := [("lat", Num (Dec false 4885 (-2))); ("lon", Num (Dec false 235 (-2)))] in
  let out := post_api_weather Sample.env Sample.empty_db body in
  get (sent (get_api_queries_id Sample.env (snd (snd out)) "1")) "weather_data"
  = JSON_image (sent (fst (snd out))) /\
  get (sent (get_api_queries_id Sample.env (snd (snd out)) "1")) "location"
  = Str "48.85,2.35".
Proof.
  intros body out.
  assert (Htry : post_api_weather_try Sample.env Sample.empty_db body
                 = (fst out, Normal (fst (snd out), snd (snd out)))) by reflexivity.
  rewrite (post_then_get Sample.env Sample.empty_db body _ _ _ "1"
             (conj (or_introl eq_refl) (conj (or_introl eq_refl) (or_introl eq_refl))) Htry
             eq_refl eq_refl eq_refl (fun r0 (H : In r0 []) => match H with end)).
  split; reflexivity.
Defined.

(** X6.  [GET /api/queries/:id] answers 404 "Query not found" exactly when
    no row has the id (the driver working); when some row has it, the
    answer is 200 with the columns of a row of that id, [id] included. *)
Theorem get_by_id_finds_the_row (E : Env) (db : database) (id_param : string) :
  sqlite_fails E = false ->
  (get_api_queries_id E db id_param = query_not_found
   <-> forall r, In r (weather_queries db) -> sqlite_id_equals E (id r) id_param = false) /\
  ((exists r, In r (weather_queries db) /\ sqlite_id_equals E (id r) id_param = true) ->
   exists r, In r (weather_queries db) /\
             sqlite_id_equals E (id r) id_param = true /\
             get_api_queries_id E db id_param = json_response 200 (row_json r)).
Proof.
  intros Hfails. unfold get_api_queries_id, sql_get. rewrite Hfails.
  change (fun r => sqlite_id_equals E (id r) id_param) with (hits E id_param).
  destruct (find (hits E id_param) (weather_queries db)) as [r|] eqn:Hfind.
  - apply find_some in Hfind as [Hin Hhit]. split.
    + split; [discriminate|]. intros Hnone.
      unfold hits in Hhit. rewrite (Hnone r Hin) in Hhit. discriminate Hhit.
    + intros _. exists r. now repeat split.
  - split.
    + split; [|reflexivity]. intros _ r Hr.
      exact (List.find_none _ _ Hfind r Hr).
    + intros (r & Hr & Hhit).
      pose proof (List.find_none _ _ Hfind r Hr) as H.
      unfold hits in H. rewrite Hhit in H. discriminate H.
Qed.

(** Query 1 and query 7 in a table whose only row is query 1. *)
Lemma get_by_id_finds_the_row_witness :
  get_api_queries_id Sample.env Sample.one_row_db "7" = query_not_found /\
  get_api_queries_id Sample.env Sample.one_row_db "1"
  = json_response 200 (row_json Sample.stored_row).
Proof.
  destruct (get_by_id_finds_the_row Sample.env Sample.one_row_db "7" eq_refl)
    as [Hmissing _].
  destruct (get_by_id_finds_the_row Sample.env Sample.one_row_db "1" eq_refl)
    as [_ Hfound].
  split.
  - apply Hmissing. intros r [<- | []]. reflexivity.
  - destruct Hfound as (r & [<- | []] & _ & H).
    + exists Sample.stored_row. split; [now left | reflexivity].
    + exact H.
Defined.

Lemma no_hit_count (E : Env) (id_param : string) (rows : list row) :
  List.length (filter (hits E id_param) rows) = 0
  <-> forall r, In r rows -> sqlite_id_equals E (id r) id_param = false.
Proof.
  induction rows as [|r rows IH]; cbn [filter].
  - split; [intros _ r [] | reflexivity].
  - unfold hits at 1. destruct (sqlite_id_equals E (id r) id_param) eqn:Hr;
      cbn [List.length].
    + split; [discriminate|]. intros H. specialize (H r (or_introl eq_refl)).
      congruence.
    + rewrite IH. split.
      * intros H r' [<- | Hr']; [exact Hr | now apply H].
      * intros H r' Hr'. apply H. now right.
Qed.

Lemma no_hit_kept (E : Env) (id_param : string) (rows : list row) :
  (forall r, In r rows -> sqlite_id_equals E (id r) id_param = false) ->
  filter (fun r => negb (hits E id_param r)) rows = rows.
Proof.
  induction rows as [|r rows IH]; intros H; [reflexivity|].
  cbn [filter]. unfold hits at 1. rewrite (H r (or_introl eq_refl)). cbn [negb].
  f_equal. apply IH. intros r' Hr'. apply H. now right.
Qed.

Lemma delete_api_queries_id_unfold (E : Env) (db : database) (id_param : string) :
  sqlite_fails E = false ->
  delete_api_queries_id E db id_param =
  (match List.length (filter (hits E id_param) (weather_queries db)) with
   | O => query_not_found
   | S _ => json_response 200 (Obj [("message", Str "Query deleted successfully")])
   end,
   {| weather_queries := filter (fun r => negb (hits E id_param r)) (weather_queries db);
      sqlite_sequence := sqlite_sequence db |}).
Proof.
  intros Hfails. unfold delete_api_queries_id, sql_delete. now rewrite Hfails.
Qed.

Lemma get_unknown_id (E : Env) (db : database) (id_param : string) :
  sqlite_fails E = false ->
  (forall r, In r (weather_queries db) -> sqlite_id_equals E (id r) id_param = false) ->
  get_api_queries_id E db id_param = query_not_found.
Proof.
  intros Hfails Hnone. unfold get_api_queries_id, sql_get. rewrite Hfails.
  change (fun r => sqlite_id_equals E (id r) id_param) with (hits E id_param).
  now rewrite find_no_hit.
Qed.

(** X7.  [DELETE /api/queries/:id], the driver working, removes the rows
    of that id and no other: a row is in the table afterwards exactly when
    it was there before and has another id.  The answer is 404 "Query not
    found" exactly when no row had the id, in which case the table is as
    it was, and 200 otherwise. *)
Theorem delete_removes_exactly (E : Env) (db : database) (id_param : string) :
  sqlite_fails E = false ->
  let out := delete_api_queries_id E db id_param in
  (forall r, In r (weather_queries (snd out)) <->
             In r (weather_queries db) /\ sqlite_id_equals E (id r) id_param = false) /\
  (fst out = query_not_found <->
   forall r, In r (weather_queries db) -> sqlite_id_equals E (id r) id_param = false) /\
  (fst out = query_not_found -> snd out = db) /\
  (fst out <> query_not_found ->
   fst out = json_response 200 (Obj [("message", Str "Query deleted successfully")])).
Proof.
  intros Hfails out. unfold out.
  rewrite (delete_api_queries_id_unfold E db id_param Hfails).
  cbn [fst snd weather_queries].
  split; [|split; [|split]].
  - intros r. rewrite filter_In, negb_true_iff. reflexivity.
  - rewrite <- no_hit_count.
    destruct (List.length (filter _ (weather_queries db))); split; intros H;
      try reflexivity; discriminate H.
  - destruct (List.length (filter _ (weather_queries db))) eqn:Hlen; [|discriminate].
    intros _. destruct db as [rows seq]. cbn [weather_queries sqlite_sequence] in *.
    f_equal. apply no_hit_kept. now apply no_hit_count.
  - destruct (List.length (filter _ (weather_queries db)));
      [intros H; now destruct H | reflexivity].
Qed.

(** Deleting query 1, then query 7, from a table that holds query 1. *)
Lemma delete_removes_exactly_witness :
  delete_api_queries_id Sample.env Sample.one_row_db "1"
  = (json_response 200 (Obj [("message", Str "Query deleted successfully")]),
     {| weather_queries := []; sqlite_sequence := 1 |}) /\
  delete_api_queries_id Sample.env Sample.one_row_db "7"
  = (query_not_found, Sample.one_row_db).
Proof.
  destruct (delete_removes_exactly Sample.env Sample.one_row_db "1" eq_refl)
    as (_ & _ & _ & Hdone).
  destruct (delete_removes_exactly Sample.env Sample.one_row_db "7" eq_refl)
    as (_ & Hmissing & Hsame & _).
  split.
  - rewrite (surjective_pairing (delete_api_queries_id Sample.env Sample.one_row_db "1")).
    rewrite Hdone; [reflexivity | discriminate].
  - rewrite (surjective_pairing (delete_api_queries_id Sample.env Sample.one_row_db "7")).
    assert (H : fst (delete_api_queries_id Sample.env Sample.one_row_db "7")
                = query_not_found).
    { apply Hmissing. intros r [<- | []]. reflexivity. }
    now rewrite (Hsame H), H.
Defined.

(** X8.  Once a query is deleted it is gone: right after a
    [DELETE /api/queries/:id] (the driver working, and whatever the first
    answer was), [GET /api/queries/:id] of the same id answers 404, and so
    does a second [DELETE], which leaves the table alone. *)
Theorem deleted_query_is_gone (E : Env) (db : database) (id_param : string) :
  sqlite_fails E = false ->
  let db' := snd (delete_api_queries_id E db id_param) in
  get_api_queries_id E db' id_param = query_not_found /\
  delete_api_queries_id E db' id_param = (query_not_found, db').
Proof.
  intros Hfails db'.
  assert (Hnone : forall r, In r (weather_queries db') ->
                            sqlite_id_equals E (id r) id_param = false).
  { intros r. unfold db'.
    rewrite (delete_api_queries_id_unfold E db id_param Hfails).
    cbn [snd weather_queries]. rewrite filter_In, negb_true_iff. now intros [_ H]. }
  split; [now apply get_unknown_id|].
  rewrite (delete_api_queries_id_unfold E db' id_param Hfails).
  rewrite (proj2 (no_hit_count E id_param (weather_queries db')) Hnone).
  rewrite (no_hit_kept E id_param _ Hnone). now destruct db'.
Qed.

Lemma deleted_query_is_gone_witness :
  get_api_queries_id Sample.env
    (snd (delete_api_queries_id Sample.env Sample.one_row_db "1")) "1"
  = query_not_found.
Proof.
  exact (proj1 (deleted_query_is_gone Sample.env Sample.one_row_db "1" eq_refl)).
Defined.

(** ** [PUT /api/queries/:id], beyond the unknown id *)

(** The handler, from the request to its answer. *)
Lemma put_api_queries_id_try_unfold (E : Env) (db : database) (id_param : string)
    (body : object) :
  put_api_queries_id_try E db id_param body =
  if negb (truthy (lookup "location" body)) then
    ([], Normal (location_is_required, db))
  else
    match date_check E (lookup "dateFrom" body) (lookup "dateTo" body) with
    | Throw err => ([], Throw err)
    | Normal (Some res) => ([], Normal (res, db))
    | Normal None =>
        match buildWeatherUrl E (lookup "location" body) Undefined Undefined Undefined with
        | Throw err => ([], Throw err)
        | Normal u =>
            ([Http_get (current u); Http_get (forecast u)],
             responses <~ Promise_all E (axios_get E (current u))
                            (axios_get E (forecast u)) ;;
             let weatherData :=
               Obj [("current", fst responses); ("forecast", snd responses)] in
             let updated :=
               sql_update E db (lookup "location" body)
                 (or_else (lookup "dateFrom" body) Null)
                 (or_else (lookup "dateTo" body) Null)
                 (JSON_image weatherData) id_param in
             Normal (update_response (fst updated) weatherData, snd updated))
        end
    end.
Proof.
  unfold put_api_queries_id_try.
  destruct (negb (truthy (lookup "location" body))); [reflexivity|].
  rewrite bind_lift.
  destruct (date_check E _ _) as [[res|]|err]; try reflexivity.
  rewrite bind_lift.
  destruct (buildWeatherUrl E _ _ _ _) as [u|err]; [|reflexivity].
  rewrite fetch_weather_eq, bind_pair.
  destruct (Promise_all E _ _) as [responses|err]; reflexivity.
Qed.

Lemma put_api_queries_id_table (E : Env) (db : database) (id_param : string)
    (body : object) :
  snd (snd (put_api_queries_id E db id_param body)) = db \/
  exists location date_from date_to weather_data,
    snd (snd (put_api_queries_id E db id_param body)) =
    snd (sql_update E db location date_from date_to weather_data id_param).
Proof.
  unfold put_api_queries_id. rewrite put_api_queries_id_try_unfold.
  destruct (negb (truthy (lookup "location" body))); [now left|].
  destruct (date_check E _ _) as [[res|]|err]; try now left.
  destruct (buildWeatherUrl E _ _ _ _) as [u|err]; [|now left].
  destruct (Promise_all E _ _) as [responses|err]; cbn [cbind snd]; [|now left].
  right. eauto.
Qed.

(** X9.  [PUT /api/queries/:id] never inserts, deletes or renumbers: for
    every request and every world, the table afterwards has the same rows
    at the same places with the same [id] and the same [created_at], a row
    of another id is exactly as it was, and the id counter is unchanged. *)
Theorem put_keeps_the_rows (E : Env) (db : database) (id_param : string)
    (body : object) :
  let db' := snd (snd (put_api_queries_id E db id_param body)) in
  Forall2 (fun r r' =>
             id r' = id r /\ created_at r' = created_at r /\
             (sqlite_id_equals E (id r) id_param = false -> r' = r))
    (weather_queries db) (weather_queries db') /\
  sqlite_sequence db' = sqlite_sequence db.
Proof.
  intros db'.
  assert (Hsame : forall rows : list row,
             Forall2 (fun r r' =>
                        id r' = id r /\ created_at r' = created_at r /\
                        (sqlite_id_equals E (id r) id_param = false -> r' = r))
               rows rows).
  { induction rows; constructor; auto. }
  destruct (put_api_queries_id_table E db id_param body)
    as [H | (location & date_from & date_to & weather_data & H)];
    unfold db'; rewrite H; [split; [apply Hsame | reflexivity]|].
  unfold sql_update. destruct (sqlite_fails E); cbn [snd weather_queries sqlite_sequence];
    [split; [apply Hsame | reflexivity]|].
  split; [|reflexivity].
  induction (weather_queries db) as [|r rows IH]; cbn [map]; constructor; [|exact IH].
  destruct (sqlite_id_equals E (id r) id_param);
    cbn [id created_at]; repeat split; congruence.
Qed.

(** X10.  [PUT /api/queries/:id] re-fetches by name only.  Whatever else
    the body holds ([lat], [lon], [type]), it calls no resolver, and the
    calls it makes, if any, are the two weather requests for the
    URL-encoded location. *)
Theorem put_queries_by_name (E : Env) (db : database) (id_param : string)
    (body : object) :
  let calls := fst (put_api_queries_id E db id_param body) in
  resolver_calls calls = [] /\
  (calls = [] \/
   exists name,
     ToString (lookup "location" body) = Normal name /\
     calls = [Http_get (current (by_name E (percent_encode name)));
              Http_get (forecast (by_name E (percent_encode name)))]).
Proof.
  intros calls.
  assert (H : calls = [] \/
              exists name,
                ToString (lookup "location" body) = Normal name /\
                calls = [Http_get (current (by_name E (percent_encode name)));
                         Http_get (forecast (by_name E (percent_encode name)))]).
  { unfold calls, put_api_queries_id. rewrite put_api_queries_id_try_unfold.
    destruct (negb (truthy (lookup "location" body))); [now left|].
    destruct (date_check E _ _) as [[res|]|err]; try now left.
    rewrite buildWeatherUrl_modes. cbn [truthy andb is_zip].
    destruct (ToString (lookup "location" body)) as [name|err]; cbn [cbind];
      [|now left].
    right. exists name. split; [reflexivity|].
    now destruct (Promise_all E _ _). }
  split; [|exact H].
  destruct H as [-> | (name & _ & ->)]; reflexivity.
Qed.

(** X11.  Update, then look up.  When [PUT /api/queries/:id], with a body
    of the documented types, passes its checks, both weather requests
    succeed, the driver works and a row has the id, the answer is 200 with
    [{current, forecast}], and [GET /api/queries/:id] then returns a row
    of that id whose [id] and [created_at] are the old ones and whose
    other columns are the new location, the new dates or [null], and the
    new record, which has no [searchedLocation]. *)
Theorem put_then_get (E : Env) (db : database) (id_param : string) (body : object)
    (u : urls) (cur fc : value) :
  binds_text body ->
  truthy (lookup "location" body) = true ->
  date_check E (lookup "dateFrom" body) (lookup "dateTo" body) = Normal None ->
  buildWeatherUrl E (lookup "location" body) Undefined Undefined Undefined = Normal u ->
  axios_get E (current u) = Resolved cur ->
  axios_get E (forecast u) = Resolved fc ->
  sqlite_fails E = false ->
  (exists r, In r (weather_queries db) /\ sqlite_id_equals E (id r) id_param = true) ->
  let out := snd (put_api_queries_id E db id_param body) in
  fst out = json_response 200
              (Obj [("message", Str "Query updated successfully");
                    ("weatherData", Obj [("current", cur); ("forecast", fc)])]) /\
  get (JSON_image (Obj [("current", cur); ("forecast", fc)])) "searchedLocation"
  = Undefined /\
  exists r,
    In r (weather_queries db) /\ sqlite_id_equals E (id r) id_param = true /\
    get_api_queries_id E (snd out) id_param =
    json_response 200
      (Obj [("id", Num (of_Z (id r)));
            ("location", lookup "location" body);
            ("date_from", or_else (lookup "dateFrom" body) Null);
            ("date_to", or_else (lookup "dateTo" body) Null);
            ("weather_data", JSON_image (Obj [("current", cur); ("forecast", fc)]));
            ("created_at", created_at r)]).
Proof.
  intros _ Hloc Hdate Hurl Hcur Hfc Hfails (r0 & Hr0 & Hhit0) out.
  unfold out, put_api_queries_id. rewrite put_api_queries_id_try_unfold.
  rewrite Hloc, Hdate, Hurl, Hcur, Hfc. cbn [negb Promise_all cbind fst snd].
  unfold sql_update. rewrite Hfails. cbn [fst snd].
  split; [|split].
  - destruct (List.length (filter _ (weather_queries db))) eqn:Hlen; [|reflexivity].
    exfalso. apply length_zero_iff_nil in Hlen.
    assert (Hin : In r0 (filter (fun r => sqlite_id_equals E (id r) id_param)
                           (weather_queries db)))
      by (apply filter_In; now split).
    rewrite Hlen in Hin. destruct Hin.
  - destruct cur, fc; reflexivity.
  - unfold get_api_queries_id, sql_get. rewrite Hfails. cbn [weather_queries].
    clear out. induction (weather_queries db) as [|r rows IH]; [destruct Hr0|].
    cbn [map find].
    destruct (sqlite_id_equals E (id r) id_param) eqn:Hr; cbn [id]; rewrite Hr.
    + exists r. split; [now left|]. split; [exact Hr | reflexivity].
    + destruct Hr0 as [-> | Hr0]; [congruence|].
      destruct (IH Hr0) as (r' & Hin & Hhit & Hget).
      exists r'. split; [now right|]. split; [exact Hhit | exact Hget].
Qed.

(** Query 1 of the sample table, updated to Lyon. *)
Lemma put_then_get_witness :
  let out := snd (put_api_queries_id Sample.env Sample.one_row_db "1"
                    [("location", Str "Lyon")]) in
  statusCode (fst out) = 200%Z /\
  get (sent (get_api_queries_id Sample.env (snd out) "1")) "location" = Str "Lyon" /\
  get (sent (get_api_queries_id Sample.env (snd out) "1")) "created_at"
  = Str "2026-01-01 00:00:00".
Proof.
  destruct (put_then_get Sample.env Sample.one_row_db "1" [("location", Str "Lyon")]
              {| current := "https://api.openweathermap.org/data/2.5/weather?q=Lyon&appid=KEY&units=metric";
                 forecast := "https://api.openweathermap.org/data/2.5/forecast?q=Lyon&appid=KEY&units=metric" |}
              Sample.paris_current Sample.paris_forecast
              (conj (or_intror (ex_intro _ "Lyon" eq_refl))
                    (conj (or_introl eq_refl) (or_introl eq_refl)))
              eq_refl eq_refl eq_refl eq_refl eq_refl eq_refl
              (ex_intro _ Sample.stored_row (conj (or_introl eq_refl) eq_refl)))
    as (Hres & _ & r & [<- | []] & _ & Hget).
  cbv zeta. rewrite Hres, Hget. repeat split.
Defined.

(** ** Listing and exporting *)

(** X12.  Point lookup, listing and JSON export agree.  Whatever row
    [GET /api/queries/:id] answers with is an entry of the array that
    [GET /api/queries] and [GET /api/export/json] send for the rows of the
    same table, in whatever order the query returned them; and those two
    send the same array, one entry per row. *)
Theorem lookup_agrees_with_listing (E : Env) (db : database) (id_param : string)
    (rows : list row) (found : value) :
  (forall r, In r (weather_queries db) -> In r rows) ->
  get_api_queries_id E db id_param = json_response 200 found ->
  exists entries,
    sent (get_api_queries false rows) = Arr entries /\
    sent (get_api_export_json false rows) = Arr entries /\
    List.length entries = List.length rows /\
    In found entries.
Proof.
  intros Hrows Hget. exists (map row_json rows).
  split; [reflexivity|]. split; [reflexivity|]. split; [apply length_map|].
  unfold get_api_queries_id, sql_get in Hget.
  destruct (sqlite_fails E); [discriminate Hget|].
  destruct (find _ (weather_queries db)) as [r|] eqn:Hfind; [|discriminate Hget].
  apply find_some in Hfind as [Hin _]. injection Hget as <-.
  apply in_map, Hrows, Hin.
Qed.

Lemma lookup_agrees_with_listing_witness :
  exists entries,
    sent (get_api_queries false [Sample.stored_row]) = Arr entries /\
    In (row_json Sample.stored_row) entries.
Proof.
  destruct (lookup_agrees_with_listing Sample.env Sample.one_row_db "1"
              [Sample.stored_row] (row_json Sample.stored_row)
              (fun r H => H) eq_refl)
    as (entries & Hlist & _ & _ & Hin).
  exists entries. split; [exact Hlist | exact Hin].
Defined.

Lemma csv_line_needs_main (r : row) :
  get (get (weather_data r) "current") "main" = Undefined ->
  exists err, csv_line r = Throw err.
Proof.
  intros Hmain. unfold csv_line.
  destruct (ToString (location r)); cbn [cbind]; [|eauto].
  destruct (ToString (or_else (date_from r) (Str ""))); cbn [cbind]; [|eauto].
  destruct (ToString (or_else (date_to r) (Str ""))); cbn [cbind]; [|eauto].
  destruct (weather_data r) as [| |b|x|s|l|o]; cbn [prop cbind]; eauto;
    cbn [get] in Hmain |- *;
    try (cbn [prop cbind]; eauto; fail).
  destruct (lookup "current" o) as [| |b|x|s|l|o']; cbn [prop cbind get] in *; eauto;
    try rewrite Hmain; cbn [prop cbind]; eauto.
Qed.

Lemma csv_lines_throw (rows : list row) (r : row) :
  In r rows -> (exists err, csv_line r = Throw err) ->
  exists err, csv_lines rows = Throw err.
Proof.
  intros Hin (err & Hr). induction rows as [|r0 rows IH]; [destruct Hin|].
  cbn [csv_lines]. destruct (csv_line r0) as [line|err0] eqn:Hr0; cbn [cbind]; [|eauto].
  destruct Hin as [-> | Hin]; [congruence|].
  destruct (IH Hin) as (err' & ->). cbn [cbind]. eauto.
Qed.

(** X13.  The CSV export is all or nothing.  It sends a file exactly when
    every row yields a line, and then the file has one line per row after
    the header; a single row whose stored record has no [current.main]
    (the record is stored as the provider sent it) makes the callback
    throw, and nothing is sent for any row. *)
Theorem csv_export_is_all_or_nothing (rows : list row) :
  ((exists res, get_api_export_csv false rows = Normal res)
   <-> forall r, In r rows -> exists line, csv_line r = Normal line) /\
  (forall res,
      get_api_export_csv false rows = Normal res ->
      statusCode res = 200%Z /\
      exists lines,
        List.length lines = List.length rows /\
        sent res = Str (String.concat newline (csv_header :: lines))) /\
  (forall r,
      In r rows -> get (get (weather_data r) "current") "main" = Undefined ->
      exists err, get_api_export_csv false rows = Throw err).
Proof.
  assert (Hlines : (exists lines, csv_lines rows = Normal lines)
                   <-> forall r, In r rows -> exists line, csv_line r = Normal line).
  { induction rows as [|r rows IH]; cbn [csv_lines].
    - split; [intros _ r [] | eauto].
    - split.
      + intros (lines & H) r' Hr'.
        destruct (csv_line r) as [line|] eqn:Hr; [|discriminate H].
        destruct (csv_lines rows) as [rest|]; [|discriminate H].
        destruct Hr' as [<- | Hr']; [eauto|]. apply IH; eauto.
      + intros H. destruct (H r (or_introl eq_refl)) as (line & ->).
        destruct (proj2 IH (fun r' Hr' => H r' (or_intror Hr'))) as (rest & ->).
        cbn [cbind]. eauto. }
  unfold get_api_export_csv. split; [|split].
  - rewrite <- Hlines. split.
    + intros (res & H). destruct (csv_lines rows) as [lines|]; [eauto | discriminate H].
    + intros (lines & ->). cbn [cbind]. eauto.
  - intros res H. destruct (csv_lines rows) as [lines|] eqn:Hrows; [|discriminate H].
    injection H as <-. split; [reflexivity|]. exists lines. split; [|reflexivity].
    clear Hlines. revert lines Hrows.
    induction rows as [|r rows IH]; intros lines; cbn [csv_lines].
    + now intros [= <-].
    + destruct (csv_line r); [|discriminate]. destruct (csv_lines rows); [|discriminate].
      intros [= <-]. cbn [List.length cbind]. f_equal. now apply IH.
  - intros r Hr Hmain.
    destruct (csv_lines_throw rows r Hr (csv_line_needs_main r Hmain)) as (err & ->).
    cbn [cbind]. eauto.
Qed.

(** A table of two rows, the second stored from an answer of the provider
    that had no [main]. *)
Lemma csv_export_is_all_or_nothing_witness :
  let bare := {| id := 2; location := Str "Nowhere"; date_from := Null;
                 date_to := Null;
                 weather_data := Obj [("current", Obj [("cod", Num (of_Z 200))]);
                                      ("forecast", Obj [])];
                 created_at := Str "2026-01-01 00:00:01" |} in
  (exists res, get_api_export_csv false [Sample.stored_row] = Normal res) /\
  (exists err, get_api_export_csv false [Sample.stored_row; bare] = Throw err).
Proof.
  intros bare. split.
  - apply (proj1 (csv_export_is_all_or_nothing [Sample.stored_row])).
    intros r [<- | []]. eexists. reflexivity.
  - apply (proj2 (proj2 (csv_export_is_all_or_nothing [Sample.stored_row; bare])) bare).
    + right. now left.
    + reflexivity.
Defined.

(** ** Videos and maps *)

Lemma get_api_youtube_unfold (E : Env) (key : option string) (location : string) :
  get_api_youtube E key location =
  match key with
  | None => ([], no_videos "message" "YouTube API key not configured")
  | Some k =>
      if String.eqb k "" then ([], no_videos "message" "YouTube API key not configured")
      else
        ([Http_get (youtube_url k location)],
         match axios_get E (youtube_url k location) with
         | Rejected _ => no_videos "error" "Failed to fetch YouTube videos"
         | Resolved payload =>
             match map_items payload with
             | Normal videos => json_response 200 (Obj [("videos", Arr videos)])
             | Throw _ => no_videos "error" "Failed to fetch YouTube videos"
             end
         end)
  end.
Proof.
  unfold get_api_youtube, get_api_youtube_try.
  destruct key as [k|]; [|reflexivity].
  destruct (String.eqb k ""); [reflexivity|].
  fold (youtube_url k location). rewrite axios_get_await_eq, bind_pair.
  destruct (axios_get E (youtube_url k location)) as [payload|r]; [|reflexivity].
  rewrite bind_lift. destruct (map_items payload); reflexivity.
Qed.

(** X14.  [GET /api/youtube/:location] never fails: whatever the key, the
    location and the provider, it answers 200 with a [videos] array.
    Without a key (unset or empty) it calls nobody; with a key it makes
    one request, for the URL-encoded text "<location> travel guide"; and
    when that request is rejected or its payload has no [items] array,
    [videos] is empty and [error] says so. *)
Theorem youtube_never_fails (E : Env) (key : option string) (location : string) :
  let out := get_api_youtube E key location in
  statusCode (snd out) = 200%Z /\
  (exists videos, get (sent (snd out)) "videos" = Arr videos) /\
  (unset key -> out = ([], no_videos "message" "YouTube API key not configured")) /\
  (forall k, key = Some k -> k <> "" ->
     fst out = [Http_get (youtube_url k location)] /\
     ((exists r, axios_get E (youtube_url k location) = Rejected r) \/
      (exists payload, axios_get E (youtube_url k location) = Resolved payload /\
                       forall items, get payload "items" <> Arr items) ->
      snd out = no_videos "error" "Failed to fetch YouTube videos")).
Proof.
  intros out. unfold out. rewrite get_api_youtube_unfold.
  split; [|split; [|split]].
  - destruct key as [k|]; [|reflexivity]. destruct (String.eqb k ""); [reflexivity|].
    destruct (axios_get E _) as [payload|]; [|reflexivity].
    destruct (map_items payload); reflexivity.
  - destruct key as [k|]; [|eexists; reflexivity].
    destruct (String.eqb k ""); [eexists; reflexivity|].
    destruct (axios_get E _) as [payload|]; [|eexists; reflexivity].
    destruct (map_items payload); eexists; reflexivity.
  - intros [-> | ->]; reflexivity.
  - intros k -> Hk. apply String.eqb_neq in Hk. rewrite Hk.
    split; [reflexivity|]. cbn [snd].
    intros [(r & ->) | (payload & -> & Hitems)]; [reflexivity|].
    unfold map_items.
    destruct payload as [| |b|x|s|l|o]; cbn [prop get cbind]; try reflexivity.
    destruct (lookup "items" o) as [| |b|x|s|l|o'] eqn:Ho; try reflexivity.
    now destruct (Hitems l).
Qed.

Lemma videos_of_length (items videos : list value) :
  videos_of items = Normal videos ->
  Forall2 (fun item video => video_of item = Normal video) items videos.
Proof.
  revert videos. induction items as [|item items IH]; intros videos; cbn [videos_of].
  - intros [= <-]. constructor.
  - destruct (video_of item) as [video|] eqn:Hitem; [|discriminate].
    destruct (videos_of items) as [rest|]; [|discriminate]. cbn [cbind].
    intros [= <-]. constructor; [exact Hitem | now apply IH].
Qed.

Lemma videos_of_throw (items : list value) (item : value) :
  In item items -> (exists err, video_of item = Throw err) ->
  exists err, videos_of items = Throw err.
Proof.
  intros Hin (err & Hitem). induction items as [|i items IH]; [destruct Hin|].
  cbn [videos_of]. destruct (video_of i) as [video|] eqn:Hi; cbn [cbind]; [|eauto].
  destruct Hin as [-> | Hin]; [congruence|].
  destruct (IH Hin) as (err' & ->). cbn [cbind]. eauto.
Qed.

Lemma prop_get (v : value) (k : string) (x : value) :
  prop v k = Normal x -> x = get v k.
Proof. destruct v; cbn [prop]; congruence. Qed.

Lemma video_of_shape (item video : value) :
  video_of item = Normal video ->
  exists watched,
    ToString (get (get item "id") "videoId") = Normal watched /\
    video = Obj [("id", get (get item "id") "videoId");
                 ("title", get (get item "snippet") "title");
                 ("thumbnail",
                  get (get (get (get item "snippet") "thumbnails") "medium") "url");
                 ("url", Str ("https://www.youtube.com/watch?v=" ++ watched))].
Proof.
  unfold video_of.
  destruct (prop item "id") as [i|] eqn:H1; cbn [cbind]; [|discriminate].
  destruct (prop i "videoId") as [vid|] eqn:H2; cbn [cbind]; [|discriminate].
  destruct (prop item "snippet") as [sn|] eqn:H3; cbn [cbind]; [|discriminate].
  destruct (prop sn "title") as [ti|] eqn:H4; cbn [cbind]; [|discriminate].
  destruct (prop sn "thumbnails") as [th|] eqn:H5; cbn [cbind]; [|discriminate].
  destruct (prop th "medium") as [me|] eqn:H6; cbn [cbind]; [|discriminate].
  destruct (prop me "url") as [ur|] eqn:H7; cbn [cbind]; [|discriminate].
  destruct (ToString vid) as [watched|] eqn:H8; cbn [cbind]; [|discriminate].
  intros [= <-].
  apply prop_get in H1, H2, H3, H4, H5, H6, H7. subst.
  exists watched. split; [exact H8 | reflexivity].
Qed.

(** X15.  The list of videos is all or nothing.  With a key and a payload
    whose [items] is an array: when every item can be read, the answer
    lists one video per item, in order, each with the item's [videoId],
    title and medium thumbnail and the watch URL of that [videoId]; a
    single item without [snippet.thumbnails] empties the whole list. *)
Theorem youtube_all_or_nothing (E : Env) (k location : string) (payload : object)
    (items : list value) :
  k <> "" ->
  axios_get E (youtube_url k location) = Resolved (Obj payload) ->
  lookup "items" payload = Arr items ->
  let res := snd (get_api_youtube E (Some k) location) in
  (forall videos,
      videos_of items = Normal videos ->
      res = json_response 200 (Obj [("videos", Arr videos)]) /\
      Forall2 (fun item video =>
                 exists watched,
                   ToString (get (get item "id") "videoId") = Normal watched /\
                   video = Obj [("id", get (get item "id") "videoId");
                                ("title", get (get item "snippet") "title");
                                ("thumbnail",
                                 get (get (get (get item "snippet") "thumbnails")
                                        "medium") "url");
                                ("url", Str ("https://www.youtube.com/watch?v="
                                             ++ watched))])
        items videos) /\
  (forall item,
      In item items -> get (get item "snippet") "thumbnails" = Undefined ->
      res = no_videos "error" "Failed to fetch YouTube videos").
Proof.
  intros Hk Hget Hitems res. unfold res. rewrite get_api_youtube_unfold.
  apply String.eqb_neq in Hk. rewrite Hk, Hget. cbn [snd].
  unfold map_items. cbn [prop get cbind]. rewrite Hitems.
  split.
  - intros videos Hall. rewrite Hall. split; [reflexivity|].
    apply videos_of_length in Hall.
    eapply Forall2_impl; [|exact Hall].
    intros item video Hv. now apply video_of_shape.
  - intros item Hin Hthumbs.
    assert (Hitem : exists err, video_of item = Throw err).
    { unfold video_of.
      destruct item as [| |b|x|s|l|o]; cbn [prop get cbind] in *; eauto.
      destruct (lookup "id" o) as [| |b|x|s|l|o'];
        cbn [prop get cbind]; eauto;
        (destruct (lookup "snippet" o) as [| |b'|x'|s'|l'|o''];
         cbn [prop get cbind] in *; eauto; rewrite Hthumbs; cbn [prop cbind]; eauto). }
    destruct (videos_of_throw items item Hin Hitem) as (err & ->). reflexivity.
Qed.

(** A page of two videos, and a page whose second entry has no thumbnails. *)
Lemma youtube_all_or_nothing_witness :
  (exists a b,
      get (sent (snd (get_api_youtube Sample.env_videos (Some "KEY") "Paris"))) "videos"
      = Arr [a; b] /\
      get a "url" = Str "https://www.youtube.com/watch?v=abc123") /\
  snd (get_api_youtube Sample.env_mixed_videos (Some "KEY") "Paris")
  = no_videos "error" "Failed to fetch YouTube videos".
Proof.
  split.
  - destruct (youtube_all_or_nothing Sample.env_videos "KEY" "Paris" _ _
                ltac:(discriminate) eq_refl eq_refl) as [Hall _].
    destruct (Hall _ eq_refl) as [Hres _].
    eexists. eexists. rewrite Hres. split; reflexivity.
  - destruct (youtube_all_or_nothing Sample.env_mixed_videos "KEY" "Paris" _ _
                ltac:(discriminate) eq_refl eq_refl) as [_ Hone].
    eapply Hone; [right; left; reflexivity | reflexivity].
Defined.

Lemma get_api_maps_unfold (E : Env) (key : option string) (location : string) :
  get_api_maps E key location =
  match key with
  | None => ([], no_map "message" "Google Maps API key not configured")
  | Some k =>
      if String.eqb k "" then ([], no_map "message" "Google Maps API key not configured")
      else
        ([Http_get (maps_url k location)],
         match axios_get E (maps_url k location) with
         | Rejected _ => no_map "error" "Failed to fetch map data"
         | Resolved payload =>
             match map_of E k payload with
             | Normal res => res
             | Throw _ => no_map "error" "Failed to fetch map data"
             end
         end)
  end.
Proof.
  unfold get_api_maps, get_api_maps_try.
  destruct key as [k|]; [|reflexivity].
  destruct (String.eqb k ""); [reflexivity|].
  fold (maps_url k location). rewrite axios_get_await_eq, bind_pair.
  destruct (axios_get E (maps_url k location)) as [payload|r]; [|reflexivity].
  unfold lift. cbn [fst snd]. destruct (map_of E k payload); reflexivity.
Qed.

Lemma map_of_answer (E : Env) (k : string) (payload : value) (res : response) :
  map_of E k payload = Normal res ->
  statusCode res = 200%Z /\
  (get (sent res) "map" = Null \/ exists m, get (sent res) "map" = Obj m).
Proof.
  unfold map_of.
  destruct (prop payload "results") as [results|]; cbn [cbind]; [|discriminate].
  destruct (length_gt_zero E results) as [[|]|]; cbn [cbind]; [| |discriminate].
  - destruct (index0 results) as [first|]; cbn [cbind]; [|discriminate].
    destruct (prop first "geometry") as [geometry|]; cbn [cbind]; [|discriminate].
    destruct (prop geometry "location") as [loc|]; cbn [cbind]; [|discriminate].
    destruct (prop loc "lat") as [lat|]; cbn [cbind]; [|discriminate].
    destruct (ToString lat) as [lat_text|]; cbn [cbind]; [|discriminate].
    destruct (ToString (get loc "lng")) as [lng_text|]; cbn [cbind]; [|discriminate].
    intros [= <-]. split; [reflexivity|]. right. eexists. reflexivity.
  - intros [= <-]. split; [reflexivity|]. now left.
Qed.

(** X16.  [GET /api/maps/:location] never fails: it always answers 200
    with [map] either [null] or a record.  Without a key it calls nobody.
    With a key it makes one request, for the URL-encoded location: a
    rejected request gives [map: null] and "Failed to fetch map data", an
    empty list of results gives [map: null] and "Location not found", and
    a first result with a location gives the record made of its [lat],
    [lng] and [formatted_address] and of the embed URL for "lat,lng",
    which carries the key. *)
Theorem maps_never_fails (E : Env) (key : option string) (location : string) :
  let out := get_api_maps E key location in
  statusCode (snd out) = 200%Z /\
  (get (sent (snd out)) "map" = Null \/ exists m, get (sent (snd out)) "map" = Obj m) /\
  (unset key -> out = ([], no_map "message" "Google Maps API key not configured")) /\
  (forall k, key = Some k -> k <> "" ->
     fst out = [Http_get (maps_url k location)] /\
     (forall r, axios_get E (maps_url k location) = Rejected r ->
                snd out = no_map "error" "Failed to fetch map data") /\
     (forall payload,
         axios_get E (maps_url k location) = Resolved (Obj payload) ->
         lookup "results" payload = Arr [] ->
         snd out = no_map "error" "Location not found") /\
     (forall payload first rest place lat lng,
         axios_get E (maps_url k location) = Resolved (Obj payload) ->
         lookup "results" payload = Arr (first :: rest) ->
         get (get first "geometry") "location" = Obj place ->
         ToString (lookup "lat" place) = Normal lat ->
         ToString (lookup "lng" place) = Normal lng ->
         snd out =
         json_response 200
           (Obj [("map",
                  Obj [("embedUrl",
                        Str ("https://www.google.com/maps/embed/v1/place?key=" ++ k
                             ++ "&q=" ++ lat ++ "," ++ lng ++ "&zoom=12"));
                       ("lat", lookup "lat" place); ("lng", lookup "lng" place);
                       ("address", get first "formatted_address")])]))).
Proof.
  intros out. unfold out. rewrite get_api_maps_unfold.
  assert (Hshape : forall k,
             statusCode (match axios_get E (maps_url k location) with
                         | Rejected _ => no_map "error" "Failed to fetch map data"
                         | Resolved payload =>
                             match map_of E k payload with
                             | Normal res => res
                             | Throw _ => no_map "error" "Failed to fetch map data"
                             end
                         end) = 200%Z /\
             (get (sent (match axios_get E (maps_url k location) with
                         | Rejected _ => no_map "error" "Failed to fetch map data"
                         | Resolved payload =>
                             match map_of E k payload with
                             | Normal res => res
                             | Throw _ => no_map "error" "Failed to fetch map data"
                             end
                         end)) "map" = Null \/
              exists m,
                get (sent (match axios_get E (maps_url k location) with
                           | Rejected _ => no_map "error" "Failed to fetch map data"
                           | Resolved payload =>
                               match map_of E k payload with
                               | Normal res => res
                               | Throw _ => no_map "error" "Failed to fetch map data"
                               end
                           end)) "map" = Obj m)).
  { intros k. destruct (axios_get E _) as [payload|]; [|split; [reflexivity | now left]].
    destruct (map_of E k payload) as [res|] eqn:Hmap;
      [exact (map_of_answer E k payload res Hmap) | split; [reflexivity | now left]]. }
  split; [|split; [|split]].
  - destruct key as [k|]; [|reflexivity]. destruct (String.eqb k ""); [reflexivity|].
    apply Hshape.
  - destruct key as [k|]; [|now left]. destruct (String.eqb k ""); [now left|].
    apply Hshape.
  - intros [-> | ->]; reflexivity.
  - intros k -> Hk. apply String.eqb_neq in Hk. rewrite Hk. cbn [fst snd].
    split; [reflexivity|]. split; [|split].
    + now intros r ->.
    + intros payload -> Hresults. unfold map_of. cbn [prop get cbind].
      rewrite Hresults. reflexivity.
    + intros payload first rest place lat lng -> Hresults Hplace Hlat Hlng.
      unfold map_of. cbn [prop get cbind]. rewrite Hresults.
      cbn [length_gt_zero List.length Nat.eqb negb cbind index0 hd].
      destruct first as [| |b|x|s|l|o]; try discriminate Hplace.
      cbn [prop get cbind] in *.
      destruct (lookup "geometry" o) as [| |b|x|s|l|g]; try discriminate Hplace.
      cbn [prop get cbind] in *. rewrite Hplace. cbn [prop get cbind].
      rewrite Hlat, Hlng. reflexivity.
Qed.

(** The map of Paris, and the same request without a key. *)
Lemma maps_never_fails_witness :
  get (get (sent (snd (get_api_maps Sample.env_geocoded (Some "MAPKEY") "Paris"))) "map")
    "embedUrl"
  = Str "https://www.google.com/maps/embed/v1/place?key=MAPKEY&q=48.8566,2.3522&zoom=12"
  /\ get_api_maps Sample.env_geocoded None "Paris"
     = ([], no_map "message" "Google Maps API key not configured").
Proof.
  destruct (maps_never_fails Sample.env_geocoded (Some "MAPKEY") "Paris")
    as (_ & _ & _ & Hkey).
  destruct (Hkey "MAPKEY" eq_refl ltac:(discriminate)) as (_ & _ & _ & Hfound).
  destruct (maps_never_fails Sample.env_geocoded None "Paris") as (_ & _ & Hunset & _).
  split.
  - rewrite (Hfound _ _ _ _ "48.8566" "2.3522" eq_refl eq_refl eq_refl eq_refl eq_refl).
    reflexivity.
  - apply Hunset. now left.
Defined.

(** The video search with an empty key, and with the provider down. *)
Lemma youtube_never_fails_witness :
  get_api_youtube Sample.env (Some "") "Paris"
  = ([], no_videos "message" "YouTube API key not configured") /\
  snd (get_api_youtube Sample.env (Some "KEY") "Paris")
  = no_videos "error" "Failed to fetch YouTube videos".
Proof.
  destruct (youtube_never_fails Sample.env (Some "") "Paris") as (_ & _ & Hunset & _).
  destruct (youtube_never_fails Sample.env (Some "KEY") "Paris") as (_ & _ & _ & Hkey).
  split.
  - apply Hunset. now right.
  - apply (Hkey "KEY" eq_refl ltac:(discriminate)). left. eexists. reflexivity.
Defined.

(** ** The CORS policy *)

Lemma prefix_append (n rest : string) : prefix n (n ++ rest) = true.
Proof.
  induction n as [|c n IH]; [now destruct rest|].
  cbn [append prefix]. destruct (ascii_dec c c); [exact IH | congruence].
Qed.

Lemma includes_append (n before rest : string) :
  includes n (before ++ n ++ rest) = true.
Proof.
  induction before as [|c before IH]; cbn [append].
  - destruct (n ++ rest) eqn:H; cbn [includes]; rewrite <- H, prefix_append;
      reflexivity.
  - cbn [includes]. rewrite IH. apply orb_true_r.
Qed.

(** X17.  The origin policy, in full: an origin is let in exactly when the
    request has none, or it contains "localhost", or it is the configured
    [FRONTEND_URL], or it contains ".onrender.com".  The seven localhost
    entries of [allowedOrigins] add nothing to the test on "localhost". *)
Theorem cors_policy (FRONTEND_URL : option string) (origin : option string) :
  cors_origin FRONTEND_URL origin = true <->
  origin = None \/ origin = Some "" \/
  exists o, origin = Some o /\
            (includes "localhost" o = true \/ FRONTEND_URL = Some o \/
             includes ".onrender.com" o = true).
Proof.
  unfold cors_origin. destruct origin as [o|]; [|split; auto].
  destruct (String.eqb_spec o ""); [subst; split; auto|].
  assert (Hlisted : listed FRONTEND_URL o = true ->
                    includes "localhost" o = true \/ FRONTEND_URL = Some o).
  { unfold listed, allowedOrigins. cbn [existsb].
    repeat match goal with
           | |- context [String.eqb ?a o] =>
               destruct (String.eqb_spec a o); [subst o; left; reflexivity|]
           end.
    cbn [orb]. destruct FRONTEND_URL as [f|]; [|discriminate].
    rewrite orb_false_r. intros H. apply String.eqb_eq in H. subst. now right. }
  assert (Hfrontend : FRONTEND_URL = Some o -> listed FRONTEND_URL o = true).
  { intros ->. unfold listed, allowedOrigins. cbn [existsb].
    rewrite String.eqb_refl, !orb_true_r. reflexivity. }
  split.
  - intros H. right. right. exists o. split; [reflexivity|].
    destruct (includes "localhost" o); [now left|]. cbn [orb] in H.
    destruct (listed FRONTEND_URL o) eqn:Hl.
    + destruct (Hlisted eq_refl) as [H'|H']; [discriminate H' | now right; left].
    + destruct (includes ".onrender.com" o); [now right; right | discriminate H].
  - intros [H | [H | (o' & [= <-] & [H | [H | H]])]]; try congruence.
    + now rewrite H.
    + rewrite (Hfrontend H), orb_true_r. reflexivity.
    + rewrite H. now destruct (includes "localhost" o || listed FRONTEND_URL o).
Qed.

Lemma includes_nonempty (n o : string) :
  n <> "" -> includes n o = true -> String.eqb o "" = false.
Proof.
  intros Hn. destruct o; [|reflexivity].
  destruct n; [congruence|]. discriminate.
Qed.

(** X18.  The two substring tests look anywhere in the origin: any origin
    that has "localhost" or ".onrender.com" somewhere in it is let in,
    whatever comes before and after, and whatever [FRONTEND_URL] is. *)
Theorem cors_substring_is_enough (FRONTEND_URL : option string) (before after : string) :
  cors_origin FRONTEND_URL (Some (before ++ "localhost" ++ after)) = true /\
  cors_origin FRONTEND_URL (Some (before ++ ".onrender.com" ++ after)) = true.
Proof.
  unfold cors_origin. split.
  - rewrite (includes_nonempty "localhost" _ ltac:(discriminate)
               (includes_append "localhost" before after)).
    now rewrite includes_append.
  - rewrite (includes_nonempty ".onrender.com" _ ltac:(discriminate)
               (includes_append ".onrender.com" before after)).
    rewrite includes_append.
    now destruct (includes "localhost" _ || listed FRONTEND_URL _).
Qed.

(** ** The place a resolver returns *)

Lemma fullName_of_place (place : object) (n c : string) :
  ToString (lookup "name" place) = Normal n ->
  ToString (lookup "country" place) = Normal c ->
  (truthy (lookup "state" place) = false ->
   fullName_of (Obj place) = Normal (n ++ ", " ++ c)) /\
  (forall s, truthy (lookup "state" place) = true ->
             ToString (lookup "state" place) = Normal s ->
             fullName_of (Obj place) = Normal (n ++ ", " ++ s ++ ", " ++ c)).
Proof.
  intros Hn Hc. unfold fullName_of. cbn [prop get cbind]. rewrite Hn, Hc.
  cbn [cbind]. split.
  - intros ->. reflexivity.
  - intros s -> ->. cbn [cbind]. now rewrite append_assoc.
Qed.

(** X19.  When the geocoder answers with a list whose first element is a
    place, only that first element is used.  The forward resolver returns
    its [lat], [lon], [name] and [country]; the reverse resolver returns
    its [name] and [country] but the coordinates of the request
    ([parseFloat] of what was asked), not those of the provider.  In both,
    [state] is the place's or [null], and [fullName] is "name, country"
    when the place has no state and "name, state, country" when it has. *)
Theorem resolvers_build_the_place (E : Env) (place : object) (rest : list value)
    (n c full : string) :
  ToString (lookup "name" place) = Normal n ->
  ToString (lookup "country" place) = Normal c ->
  (truthy (lookup "state" place) = false /\ full = n ++ ", " ++ c) \/
  (exists s, truthy (lookup "state" place) = true /\
             ToString (lookup "state" place) = Normal s /\
             full = n ++ ", " ++ s ++ ", " ++ c) ->
  (forall location q,
      encodeURIComponent location = Normal q ->
      axios_get E (direct_url E q) = Resolved (Arr (Obj place :: rest)) ->
      snd (getCoordinatesFromLocation E location) =
      Normal (Obj [("lat", lookup "lat" place); ("lon", lookup "lon" place);
                   ("name", lookup "name" place); ("country", lookup "country" place);
                   ("state", or_else (lookup "state" place) Null);
                   ("fullName", Str full)])) /\
  (forall lat lon a b,
      ToString lat = Normal a -> ToString lon = Normal b ->
      axios_get E (reverse_url E a b) = Resolved (Arr (Obj place :: rest)) ->
      snd (getLocationFromCoordinates E lat lon) =
      Normal (Obj [("lat", Num (parseFloat E a)); ("lon", Num (parseFloat E b));
                   ("name", lookup "name" place); ("country", lookup "country" place);
                   ("state", or_else (lookup "state" place) Null);
                   ("fullName", Str full)])).
Proof.
  intros Hn Hc Hstate.
  destruct (fullName_of_place place n c Hn Hc) as [Hwithout Hwith].
  assert (Hfull : fullName_of (Obj place) = Normal full).
  { destruct Hstate as [[Ht ->] | (s & Ht & Hs & ->)]; auto. }
  split.
  - intros location q Hq Hget.
    rewrite getCoordinatesFromLocation_unfold.
    rewrite (getCoordinatesFromLocation_try_request E location Hq), Hget.
    cbn [has_results truthy length_gt_zero List.length Nat.eqb negb].
    rewrite bind_lift_normal. unfold lift. cbn [snd index0 hd prop get cbind].
    rewrite Hfull. reflexivity.
  - intros lat lon a b Ha Hb Hget.
    rewrite getLocationFromCoordinates_unfold.
    rewrite (getLocationFromCoordinates_try_request E lat lon Ha Hb), Hget.
    cbn [has_results truthy length_gt_zero List.length Nat.eqb negb].
    rewrite bind_lift_normal. unfold lift. cbn [snd index0 hd prop get cbind].
    rewrite Hfull. reflexivity.
Qed.

(** Paris, found by name and by coordinates. *)
Lemma resolvers_build_the_place_witness :
  get match snd (getCoordinatesFromLocation Sample.env (Str "Paris")) with
      | Normal place => place
      | Throw _ => Null
      end "fullName" = Str "Paris, Ile-de-France, FR" /\
  get match snd (getLocationFromCoordinates Sample.env (Num (Dec false 4885 (-2)))
                   (Num (Dec false 235 (-2)))) with
      | Normal place => place
      | Throw _ => Null
      end "lat" = Num (Dec false 4885 (-2)).
Proof.
  destruct (resolvers_build_the_place Sample.env
              [("name", Str "Paris"); ("lat", Num (Dec false 488534 (-4)));
               ("lon", Num (Dec false 23488 (-4))); ("country", Str "FR");
               ("state", Str "Ile-de-France")] [] "Paris" "FR"
              "Paris, Ile-de-France, FR" eq_refl eq_refl
              (or_intror (ex_intro _ "Ile-de-France"
                            (conj eq_refl (conj eq_refl eq_refl)))))
    as [Hforward Hreverse].
  split.
  - rewrite (Hforward (Str "Paris") "Paris" eq_refl eq_refl). reflexivity.
  - rewrite (Hreverse (Num (Dec false 4885 (-2))) (Num (Dec false 235 (-2)))
               "48.85" "2.35" eq_refl eq_refl eq_refl).
    reflexivity.
Defined.

(** ** What reaches the weather URLs *)

Lemma hex_digit_unreserved (k : nat) : k < 16 -> unreserved (hex_digit k) = true.
Proof.
  intros Hk. do 16 (destruct k as [|k]; [reflexivity|]). lia.
Qed.

Lemma percent_encode_safe (s : string) : all_chars url_safe (percent_encode s) = true.
Proof.
  induction s as [|c s IH]; [reflexivity|].
  cbn [percent_encode]. destruct (unreserved c) eqn:Hc; cbn [all_chars].
  - unfold url_safe at 1. now rewrite Hc, IH.
  - rewrite IH. unfold url_safe.
    pose proof (nat_ascii_bounded c) as Hbound.
    rewrite !hex_digit_unreserved.
    + reflexivity.
    + apply Nat.mod_upper_bound. discriminate.
    + apply Nat.Div0.div_lt_upper_bound. exact Hbound.
Qed.

Lemma safe_excludes (c : ascii) (s : string) :
  url_safe c = false -> all_chars url_safe s = true ->
  includes (String c "") s = false.
Proof.
  intros Hc. induction s as [|x s IH]; [reflexivity|].
  cbn [all_chars includes prefix]. intros H. apply andb_true_iff in H as [Hx Hs].
  rewrite (IH Hs). destruct (ascii_dec c x) as [->|]; [congruence|reflexivity].
Qed.

(** X20.  A location queried by name cannot alter the weather URLs.  When
    [buildWeatherUrl] answers in free-text mode, the query term it puts
    into both URLs is made of unreserved characters and percent escapes
    only: it contains no "&", "=", "#", "?", "/" and no space, whatever
    the location was.  In zip mode the location is interpolated as it
    is. *)
Theorem name_query_is_encoded (E : Env) (location lat lon type : value) (u : urls) :
  truthy lat && truthy lon = false ->
  buildWeatherUrl E location lat lon type = Normal u ->
  exists text,
    ToString location = Normal text /\
    (is_zip type = true -> u = by_zip E text) /\
    (is_zip type = false ->
     exists q,
       u = by_name E q /\ q = percent_encode text /\
       all_chars url_safe q = true /\
       forall c, In c ["&"; "="; "#"; "?"; "/"; " "]%char ->
                 includes (String c "") q = false).
Proof.
  intros Hcoords. rewrite buildWeatherUrl_modes, Hcoords.
  destruct (is_zip type).
  - destruct (ToString location) as [text|]; cbn [cbind]; [|discriminate].
    intros [= <-]. exists text. split; [reflexivity|]. split; [reflexivity | discriminate].
  - destruct (ToString location) as [text|]; cbn [cbind]; [|discriminate].
    intros [= <-]. exists text. split; [reflexivity|]. split; [discriminate|].
    intros _. exists (percent_encode text). repeat split.
    + apply percent_encode_safe.
    + intros c Hc. apply safe_excludes; [|apply percent_encode_safe].
      cbn [In] in Hc.
      repeat (destruct Hc as [<- | Hc]; [reflexivity|]). destruct Hc.
Qed.

(** A location that tries to add a parameter, by name and as a zip code. *)
Lemma name_query_is_encoded_witness :
  buildWeatherUrl Sample.env (Str "Paris&units=imperial") Undefined Undefined Undefined
  = Normal (by_name Sample.env "Paris%26units%3Dimperial") /\
  buildWeatherUrl Sample.env (Str "75001&units=imperial") Undefined Undefined (Str "zip")
  = Normal (by_zip Sample.env "75001&units=imperial").
Proof.
  split.
  - destruct (name_query_is_encoded Sample.env (Str "Paris&units=imperial")
                Undefined Undefined Undefined _ eq_refl eq_refl)
      as (text & [= <-] & _ & Hname).
    destruct (Hname eq_refl) as (q & _ & -> & _). reflexivity.
  - destruct (name_query_is_encoded Sample.env (Str "75001&units=imperial")
                Undefined Undefined (Str "zip") _ eq_refl eq_refl)
      as (text & [= <-] & Hzip & _).
    reflexivity.
Defined.
